(** * astrbot_plugin_memelite: keyword matcher and parameter collector

    A shallow embedding of [core/meme.py] (MemeManager.match_meme_keyword)
    and [core/param.py] (ParamsCollector) together with the properties
    stated about them.

    Conventions.
    - A Python [str] is a [string]; a character stands for the code point
      of the same number (0..255), classified the way CPython classifies
      that code point ([str.isspace], [str.isdigit]).
    - [bytes] is a list of bytes; Python integers are [Z].
    - A call that may raise returns a [result]; code that also talks to
      the network, the file system or the chat platform runs in [IO],
      which threads the list of requests issued so far. *)

From Stdlib Require Import ZArith Lia Ascii String.
From stdpp Require Import base strings gmap list.

Local Open Scope string_scope.
Local Open Scope list_scope.
Local Open Scope Z_scope.

Local Arguments String.append !_ _ / : simpl nomatch.

(* ================================================================== *)
(** * Part I. Definitions                                              *)
(* ================================================================== *)

(** ** Exceptions and fallible results *)

Inductive exn : Type :=
| IndexError
| AttributeError
| ValueError
| ExternalError (name : string).

Inductive result (A : Type) : Type :=
| Ok (a : A)
| Raise (e : exn).

Arguments Ok {A} a.
Arguments Raise {A} e.

Definition is_ok {A} (r : result A) : bool :=
  match r with Ok _ => true | Raise _ => false end.

(** ** Python string primitives *)

(** [c.isspace()] for a code point below 256: TAB..CR, FS..US, SPACE,
    NEL (0x85) and NBSP (0xA0). *)
Definition py_isspace (c : ascii) : bool :=
  let n := nat_of_ascii c in
  ((9 <=? n) && (n <=? 13) || (28 <=? n) && (n <=? 32)
   || (n =? 133) || (n =? 160))%nat.

(** [c.isdigit()] for a code point below 256: '0'..'9' and the
    superscripts 0xB2, 0xB3, 0xB9. *)
Definition py_isdigit_char (c : ascii) : bool :=
  let n := nat_of_ascii c in
  ((48 <=? n) && (n <=? 57) || (n =? 178) || (n =? 179) || (n =? 185))%nat.

Fixpoint str_forall (p : ascii -> bool) (s : string) : bool :=
  match s with
  | EmptyString => true
  | String c s' => p c && str_forall p s'
  end.

Definition str_nonempty (s : string) : bool :=
  match s with EmptyString => false | String _ _ => true end.

(** [s.isdigit()]: at least one character, all of them digits. *)
Definition py_isdigit (s : string) : bool :=
  str_nonempty s && str_forall py_isdigit_char s.

(** [s.split()]: the maximal runs of non-whitespace characters. [acc] is
    the run being read. *)
Fixpoint split_ws (acc : string) (s : string) : list string :=
  match s with
  | EmptyString => if str_nonempty acc then [acc] else []
  | String c s' =>
      if py_isspace c
      then (if str_nonempty acc then acc :: split_ws "" s' else split_ws "" s')
      else split_ws (acc +:+ String c "") s'
  end.

Definition py_split (s : string) : list string := split_ws "" s.

(** [s.split(sep)] for a one-character separator: every occurrence
    cuts, empty pieces are kept. *)
Fixpoint split_on (sep : ascii) (acc : string) (s : string) : list string :=
  match s with
  | EmptyString => [acc]
  | String c s' =>
      if Ascii.eqb c sep then acc :: split_on sep "" s'
      else split_on sep (acc +:+ String c "") s'
  end.

Definition py_split_sep (sep : ascii) (s : string) : list string :=
  split_on sep "" s.

(** [s.lstrip()], [s.rstrip()], [s.strip()]. *)
Fixpoint py_lstrip (s : string) : string :=
  match s with
  | EmptyString => ""
  | String c s' => if py_isspace c then py_lstrip s' else s
  end.

Fixpoint py_rstrip (s : string) : string :=
  match s with
  | EmptyString => ""
  | String c s' =>
      match py_rstrip s' with
      | EmptyString => if py_isspace c then "" else String c ""
      | r => String c r
      end
  end.

Definition py_strip (s : string) : string := py_rstrip (py_lstrip s).

(** [s.startswith(p)]. *)
Definition py_startswith (p s : string) : bool := String.prefix p s.

(** [k in s]: [k] occurs in [s] as a contiguous substring. *)
Fixpoint py_contains (k s : string) : bool :=
  py_startswith k s
  || match s with
     | EmptyString => false
     | String _ s' => py_contains k s'
     end.

(** [c in s] for a single character. *)
Fixpoint py_contains_char (c : ascii) (s : string) : bool :=
  match s with
  | EmptyString => false
  | String d s' => Ascii.eqb d c || py_contains_char c s'
  end.

(** [s.split(sep, 1)] when [sep] occurs in [s]: the text before and after
    the first occurrence. *)
Fixpoint split_first (sep : ascii) (s : string) : string * string :=
  match s with
  | EmptyString => ("", "")
  | String c s' =>
      if Ascii.eqb c sep then ("", s')
      else let '(k, v) := split_first sep s' in (String c k, v)
  end.

(** [s[1:]]. *)
Definition py_tail (s : string) : string :=
  match s with EmptyString => "" | String _ s' => s' end.

(** [s[n:]]. *)
Fixpoint py_drop (n : nat) (s : string) : string :=
  match n, s with
  | O, _ => s
  | S n', String _ s' => py_drop n' s'
  | S _, EmptyString => ""
  end.

(** [s.replace(old, new)] for a non-empty [old]: occurrences are replaced
    left to right without overlap. [skip] counts the characters of a
    matched occurrence still to be dropped. *)
Fixpoint replace_go (old new : string) (skip : nat) (s : string) : string :=
  match s with
  | EmptyString => ""
  | String c s' =>
      match skip with
      | S k => replace_go old new k s'
      | O =>
          if py_startswith old s
          then new +:+ replace_go old new (String.length old - 1)%nat s'
          else String c (replace_go old new 0 s')
      end
  end.

Definition py_replace (old new s : string) : string :=
  replace_go old new 0 s.

(** [l[:n]] for a Python integer [n]: the first [n] items, or all but the
    last [-n] when [n] is negative. *)
Definition py_slice_to {A} (l : list A) (n : Z) : list A :=
  if 0 <=? n then take (Z.to_nat n) l
  else take (length l - Z.to_nat (- n))%nat l.

(** [len(l) < n]. *)
Definition len_lt {A} (l : list A) (n : Z) : bool :=
  Z.of_nat (length l) <? n.

(** [next((k for k in l if cond(k)), None)]: the condition is evaluated
    item by item, and an exception it raises leaves the generator. *)
Fixpoint py_next {A} (cond : A -> result bool) (l : list A) : result (option A) :=
  match l with
  | [] => Ok None
  | k :: l' =>
      match cond k with
      | Ok true => Ok (Some k)
      | Ok false => py_next cond l'
      | Raise e => Raise e
      end
  end.

(** [l[0]]. *)
Definition py_head {A} (l : list A) : result A :=
  match l with
  | [] => Raise IndexError
  | x :: _ => Ok x
  end.

(** ** core/meme.py: MemeManager.match_meme_keyword

    [meme_keywords] is the attribute [self.meme_keywords], the keywords
    of every meme in catalog order. *)
Definition match_meme_keyword
    (meme_keywords : list string) (text : string) (fuzzy_match : bool)
    : result (option string) :=
  if fuzzy_match
  then py_next (fun k => Ok (py_contains k text)) meme_keywords
  else py_next
         (fun k =>
            match py_head (py_split text) with
            | Ok t => Ok (String.eqb k t)
            | Raise e => Raise e
            end)
         meme_keywords.

(** [int(s)] for a string. Whitespace at both ends is skipped: the
    ASCII blanks TAB..CR and SPACE, and the blanks above 127 (NEL,
    NBSP), which are first turned into spaces; the separators FS..US are
    not skipped. One sign is allowed, the digits may be grouped by single
    underscores, and a literal of more than [int_max_str_digits] digits
    is refused (the interpreter's default limit). *)
Definition int_isspace (c : ascii) : bool :=
  let n := nat_of_ascii c in
  ((9 <=? n) && (n <=? 13) || (n =? 32) || (n =? 133) || (n =? 160))%nat.

Fixpoint int_lstrip (s : string) : string :=
  match s with
  | EmptyString => ""
  | String c s' => if int_isspace c then int_lstrip s' else s
  end.

Fixpoint int_rstrip (s : string) : string :=
  match s with
  | EmptyString => ""
  | String c s' =>
      match int_rstrip s' with
      | EmptyString => if int_isspace c then "" else String c ""
      | r => String c r
      end
  end.

Definition digit_val (c : ascii) : option Z :=
  let n := nat_of_ascii c in
  if ((48 <=? n) && (n <=? 57))%nat then Some (Z.of_nat (n - 48)) else None.

Fixpoint int_digits (acc : Z) (after_digit : bool) (s : string) : option Z :=
  match s with
  | EmptyString => if after_digit then Some acc else None
  | String c s' =>
      match digit_val c with
      | Some d => int_digits (10 * acc + d) true s'
      | None =>
          if Ascii.eqb c "_" && after_digit then int_digits acc false s'
          else None
      end
  end.

(** The number of digit characters of a literal; underscores do not
    count. *)
Fixpoint count_digits (s : string) : Z :=
  match s with
  | EmptyString => 0
  | String c s' =>
      match digit_val c with
      | Some _ => 1 + count_digits s'
      | None => count_digits s'
      end
  end.

Definition int_max_str_digits : Z := 4300.

Definition py_int (s : string) : result Z :=
  let literal (r : string) : option Z :=
    if int_max_str_digits <? count_digits r then None
    else int_digits 0 false r in
  let parsed :=
    match int_rstrip (int_lstrip s) with
    | String "+" r => literal r
    | String "-" r => Z.opp <$> literal r
    | r => literal r
    end in
  match parsed with
  | Some z => Ok z
  | None => Raise ValueError
  end.

(** [c * n]. *)
Fixpoint str_repeat (c : ascii) (n : nat) : string :=
  match n with
  | O => ""
  | S n' => String c (str_repeat c n')
  end.

(** ** Message model (the chat platform's components) *)

Definition bytes : Type := list Byte.byte.

(** A value stored in the options dictionary or returned by the
    platform: a string or [None]. *)
Inductive pyval : Type :=
| VStr (s : string)
| VNone.

(** The message components the collector tells apart. [At.qq] and
    [Reply.sender_id] are kept as the text [str] gives them; a [Reply]
    without a chain has the empty chain. *)
#[warnings="-register-all"]
Inductive segment : Type :=
| Image (url file : option string)
| At (qq : string) (name : option string)
| Plain (text : string)
| Reply (chain : list segment) (sender_nickname sender_id : option string)
| Other (kind : string).

Definition opt_str_eqb (a b : option string) : bool :=
  match a, b with
  | Some x, Some y => String.eqb x y
  | None, None => true
  | _, _ => false
  end.

(** [a == b] on components: same kind and same fields. *)
Fixpoint seg_eqb (a b : segment) : bool :=
  match a, b with
  | Image u f, Image u' f' => opt_str_eqb u u' && opt_str_eqb f f'
  | At q n, At q' n' => String.eqb q q' && opt_str_eqb n n'
  | Plain t, Plain t' => String.eqb t t'
  | Reply c n i, Reply c' n' i' =>
      (fix chain_eqb (l l' : list segment) : bool :=
         match l, l' with
         | [], [] => true
         | x :: r, y :: r' => seg_eqb x y && chain_eqb r r'
         | _, _ => false
         end) c c'
      && opt_str_eqb n n' && opt_str_eqb i i'
  | Other k, Other k' => String.eqb k k'
  | _, _ => false
  end.

Definition is_Reply (s : segment) : bool :=
  match s with Reply _ _ _ => true | _ => false end.

Definition is_At (s : segment) : bool :=
  match s with At _ _ => true | _ => false end.

(** What the collector reads from an [AstrMessageEvent]. *)
Record event : Type := {
  get_messages : list segment;
  get_sender_id : string;
  get_self_id : string;
  get_sender_name : string;
  get_platform_name : string;
}.

(** The parameter constraints of a meme ([params_type] / [info.params]). *)
Record meme_params : Type := {
  min_images : Z;
  max_images : Z;
  min_texts : Z;
  max_texts : Z;
  default_texts : list string;
}.

(** The reply of [get_stranger_info]: the entries the collector reads. *)
Record user_info : Type := {
  nickname : option string;
  sex : pyval;
}.

(** ** The outside world and the [IO] monad *)

Inductive request : Type :=
| HttpGet (url : string)
| IsFile (path : string)
| ReadBytes (path : string)
| StrangerInfo (user_id : Z).

Definition trace : Type := list request.

(** The answers of the outside world. Each may depend on the requests
    issued before. [http_get] answers [None] when the request raises. *)
Record world : Type := {
  http_get : trace -> string -> option bytes;
  path_is_file : trace -> string -> result bool;
  path_read_bytes : trace -> string -> result bytes;
  get_stranger_info : trace -> Z -> result user_info;
  b64decode : string -> result bytes;
}.

Definition IO (A : Type) : Type := trace -> result A * trace.

Definition ret {A} (a : A) : IO A := fun tr => (Ok a, tr).

Definition raise {A} (e : exn) : IO A := fun tr => (Raise e, tr).

Definition lift {A} (r : result A) : IO A := fun tr => (r, tr).

Definition bind {A B} (m : IO A) (k : A -> IO B) : IO B :=
  fun tr =>
    match m tr with
    | (Ok a, tr') => k a tr'
    | (Raise e, tr') => (Raise e, tr')
    end.

Declare Scope io_scope.
Delimit Scope io_scope with io.
Notation "x <- m ;; k" := (bind m (fun x => k))
  (at level 100, m at next level, right associativity) : io_scope.
Local Open Scope io_scope.

(** Issue a request: record it and read the world's answer. *)
Definition ask {A} (q : request) (answer : trace -> result A) : IO A :=
  fun tr => (answer tr, tr ++ [q]).

(** [for x in l: body(x)] over a threaded state. *)
Fixpoint for_each {A S} (body : A -> S -> IO S) (l : list A) (st : S) : IO S :=
  match l with
  | [] => ret st
  | x :: l' => st' <- body x st ;; for_each body l' st'
  end.

(** Truthiness of [bytes | None] and of [str | None]. *)
Definition truthy_bytes (o : option bytes) : option bytes :=
  match o with
  | Some (b :: r) => Some (b :: r)
  | _ => None
  end.

Definition truthy_str (o : option string) : option string :=
  match o with
  | Some (String c r) => Some (String c r)
  | _ => None
  end.

(** [a or b] on [str | None]. *)
Definition py_or (a b : option string) : option string :=
  match truthy_str a with
  | Some s => Some s
  | None => b
  end.

(** ** core/param.py: ParamsCollector *)

(** The three collections built by [collect_params]. *)
Record collected : Type := {
  images : list (string * bytes);
  texts : list string;
  options : gmap string pyval;
}.

Definition empty_collected : collected :=
  {| images := []; texts := []; options := ∅ |}.

Definition with_images (st : collected) (imgs : list (string * bytes)) : collected :=
  {| images := imgs; texts := texts st; options := options st |}.

Definition with_texts (st : collected) (txts : list string) : collected :=
  {| images := images st; texts := txts; options := options st |}.

Definition with_options (st : collected) (opts : gmap string pyval) : collected :=
  {| images := images st; texts := texts st; options := opts |}.

Section Collector.

Variable w : world.

(** [_download_image]: any exception of the request is caught and
    gives [None]. *)
Definition _download_image (url : string) (http : bool) : IO (option bytes) :=
  let url := if http then py_replace "https://" "http://" url else url in
  ask (HttpGet url) (fun tr => Ok (http_get w tr url)).

(** [random.randint(a, b)] where [random] is the name bound by
    [from random import random]: the function [random.random], which
    has no attribute [randint]. *)
Definition random_randint (a b : Z) : IO Z := raise AttributeError.

(** [f"{n}"] for the integers of [get_avatar]'s range. *)
Definition format_int (n : Z) : string := pretty.pretty n.

Definition get_avatar (user_id : string) : IO (option bytes) :=
  user_id <- (if negb (py_isdigit user_id)
              then n <- random_randint 10000000 999999999 ;; ret (format_int n)
              else ret user_id) ;;
  let avatar_url :=
    "https://q4.qlogo.cn/headimg_dl?dst_uin=" +:+ user_id +:+ "&spec=640" in
  _download_image avatar_url true.

Definition _decode_image (src : string) : IO (option bytes) :=
  is_file <- ask (IsFile src) (fun tr => path_is_file w tr src) ;;
  if is_file : bool then
    raw <- ask (ReadBytes src) (fun tr => path_read_bytes w tr src) ;;
    ret (Some raw)
  else if py_startswith "http" src then
    _download_image src true
  else if py_startswith "base64://" src then
    decoded <- lift (b64decode w (py_drop 9 src)) ;;
    ret (Some decoded)
  else ret None.

(** [get_extra]: only the aiocqhttp platform has a profile lookup (the
    assertion on the event's class holds there). A missing nickname
    reads "Unknown". *)
Definition get_extra (ev : event) (target_id : string)
    : IO (option (string * pyval)) :=
  if String.eqb (get_platform_name ev) "aiocqhttp" then
    uid <- lift (py_int target_id) ;;
    info <- ask (StrangerInfo uid) (fun tr => get_stranger_info w tr uid) ;;
    let name := match nickname info with Some n => n | None => "Unknown" end in
    ret (Some (name, sex info))
  else ret None.

Definition _append_id_info (ev : event) (target_id : string) (st : collected)
    : IO collected :=
  result <- get_extra ev target_id ;;
  match result with
  | Some (name, gender) =>
      let st := with_options st
                  (<["gender" := gender]> (<["name" := VStr name]> (options st))) in
      avatar <- get_avatar target_id ;;
      match truthy_bytes avatar with
      | Some data => ret (with_images st (images st ++ [(name, data)]))
      | None => ret st
      end
  | None => ret st
  end.

(** The body of the loop over [plains[1:]]. *)
Definition process_token (ev : event) (text : string) (st : collected)
    : IO collected :=
  if py_contains_char "=" text then
    let '(k, v) := split_first "=" text in
    ret (with_options st (<[k := VStr v]> (options st)))
  else if py_startswith "@" text then
    let target_id := py_tail text in
    if py_isdigit target_id then _append_id_info ev target_id st
    else ret st
  else if str_nonempty text then
    ret (with_texts st (texts st ++ [text]))
  else ret st.

(** [_process_segment]; [chain] is the chain of the current message,
    which the closure reads. *)
Definition _process_segment (ev : event) (chain : list segment)
    (seg : segment) (name : string) (st : collected) : IO collected :=
  match seg with
  | Image url file =>
      match truthy_str (py_or url file) with
      | Some src =>
          image <- _decode_image src ;;
          match truthy_bytes image with
          | Some data => ret (with_images st (images st ++ [(name, data)]))
          | None => ret st
          end
      | None => ret st
      end
  | At qq _ =>
      first <- lift (py_head chain) ;;
      if negb (seg_eqb seg first) then _append_id_info ev qq st
      else ret st
  | Plain text =>
      let plains := py_split_sep " " (py_strip text) in
      if (1 <? length plains)%nat
      then for_each (process_token ev) (tail plains) st
      else ret st
  | _ => ret st
  end.

(** Lines 120-126: the replied message first, then the message. *)
Definition segment_pass (ev : event) (st : collected) : IO collected :=
  let chain := get_messages ev in
  let sender_name := get_sender_name ev in
  st <- match find is_Reply chain with
        | Some (Reply (r :: rs) sender_nickname sender_id) =>
            let name :=
              match py_or sender_nickname sender_id with
              | Some s => s
              | None => "None"
              end in
            for_each (fun seg => _process_segment ev chain seg name) (r :: rs) st
        | _ => ret st
        end ;;
  for_each (fun seg => _process_segment ev chain seg sender_name) chain st.

(** Lines 129-134: avatars put in front while images are missing. *)
Definition image_backfill (ev : event) (params : meme_params)
    (imgs : list (string * bytes)) : IO (list (string * bytes)) :=
  imgs <- (if len_lt imgs (min_images params) then
             sender_avatar <- get_avatar (get_sender_id ev) ;;
             match truthy_bytes sender_avatar with
             | Some data => ret ((get_sender_name ev, data) :: imgs)
             | None => ret imgs
             end
           else ret imgs) ;;
  if len_lt imgs (min_images params) then
    bot_avatar <- get_avatar (get_self_id ev) ;;
    match truthy_bytes bot_avatar with
    | Some data => ret (("bot", data) :: imgs)
    | None => ret imgs
    end
  else ret imgs.

(** Lines 138-139: default texts put at the end while texts are
    missing. *)
Definition text_backfill (params : meme_params) (txts : list string)
    : list string :=
  if len_lt txts (min_texts params)
     && match default_texts params with [] => false | _ => true end
  then txts ++ default_texts params
  else txts.

Definition collect_params (ev : event) (params : meme_params)
    : IO (list (string * bytes) * list string * gmap string pyval) :=
  st <- segment_pass ev empty_collected ;;
  imgs <- image_backfill ev params (images st) ;;
  let imgs := py_slice_to imgs (max_images params) in
  let txts := text_backfill params (texts st) in
  let txts := py_slice_to txts (max_texts params) in
  ret (imgs, txts, options st).

End Collector.

(** ** Notions used to state the properties *)

(** The substring relation behind Python's [k in s]. *)
Definition occurs_in (k s : string) : Prop :=
  exists pre post, s = pre +:+ k +:+ post.

(** Only whitespace; no whitespace. *)
Definition all_space (s : string) : bool := str_forall py_isspace s.

Definition no_space (s : string) : bool :=
  str_forall (fun c => negb (py_isspace c)) s.

(** [post] is empty or begins with a whitespace character. *)
Definition at_boundary (post : string) : bool :=
  match post with
  | EmptyString => true
  | String c _ => py_isspace c
  end.

(** [k] is the first whitespace-delimited token of [text]: only
    whitespace comes before it, it is a non-empty run without whitespace,
    and it ends at whitespace or at the end of [text]. *)
Definition first_token (text k : string) : Prop :=
  exists pre post,
    text = pre +:+ k +:+ post
    /\ all_space pre = true
    /\ str_nonempty k = true
    /\ no_space k = true
    /\ at_boundary post = true.

(** The nickname [get_extra] returns for a profile. *)
Definition display_name (info : user_info) : string :=
  match nickname info with Some n => n | None => "Unknown" end.

(** The URL [get_avatar] downloads for a user id: the avatar address
    after [_download_image] has downgraded it to plain http. *)
Definition avatar_request (user_id : string) : string :=
  py_replace "https://" "http://"
    ("https://q4.qlogo.cn/headimg_dl?dst_uin=" +:+ user_id +:+ "&spec=640").

(** ** Views of the chain used to state what the segment pass does *)

(** The sub-chain of the first [Reply] of the chain, if any. *)
Definition reply_chain_of (chain : list segment) : list segment :=
  match List.find is_Reply chain with
  | Some (Reply sub _ _) => sub
  | _ => []
  end.

(** The label given to what the replied message contributes. *)
Definition reply_label_of (chain : list segment) : string :=
  match List.find is_Reply chain with
  | Some (Reply _ sender_nickname sender_id) =>
      match py_or sender_nickname sender_id with
      | Some s => s
      | None => "None"
      end
  | _ => "None"
  end.

(** [seg] is a mention that compares equal to [chain[0]]. *)
Definition equals_first (chain : list segment) (seg : segment) : bool :=
  match chain with
  | first :: _ => is_At seg && seg_eqb seg first
  | [] => false
  end.

(** [segs] without the mentions that compare equal to [chain[0]]. *)
Definition without_first_mention (chain segs : list segment) : list segment :=
  List.filter (fun seg => negb (equals_first chain seg)) segs.

(** ** Sample worlds and messages used to evaluate the code *)

Definition png_bytes : bytes := [Byte.x89; Byte.x50; Byte.x4e; Byte.x47].

Definition avatar_url (user_id : string) : string :=
  "http://q4.qlogo.cn/headimg_dl?dst_uin=" +:+ user_id +:+ "&spec=640".

(** A platform that knows user 12345678 ("Bob") and serves that user's
    avatar; every other lookup or download fails. *)
Definition stub_world : world := {|
  http_get := fun _ url =>
    if String.eqb url (avatar_url "12345678") then Some png_bytes else None;
  path_is_file := fun _ _ => Ok false;
  path_read_bytes := fun _ _ => Raise (ExternalError "FileNotFoundError");
  get_stranger_info := fun _ uid =>
    if uid =? 12345678 then Ok {| nickname := Some "Bob"; sex := VStr "male" |}
    else Raise (ExternalError "ActionFailed");
  b64decode := fun _ => Raise (ExternalError "binascii.Error");
|}.

Definition punch_event : event := {|
  get_messages := [Plain "punch @12345678 hard"];
  get_sender_id := "87654321";
  get_self_id := "10001";
  get_sender_name := "Alice";
  get_platform_name := "aiocqhttp";
|}.

Definition one_image_one_text : meme_params := {|
  min_images := 1; max_images := 1;
  min_texts := 1; max_texts := 1;
  default_texts := [];
|}.

(** A message that opens with a mention of the bot. *)
Definition mention_caption_event : event := {|
  get_messages := [At "10001" (Some "bot"); Plain "caption"];
  get_sender_id := "87654321";
  get_self_id := "10001";
  get_sender_name := "Alice";
  get_platform_name := "aiocqhttp";
|}.

Definition no_minimum : meme_params := {|
  min_images := 0; max_images := 2;
  min_texts := 0; max_texts := 2;
  default_texts := [];
|}.

(** A message without segments from a sender whose id is not a number,
    as on platforms that identify users by an opaque string. *)
Definition opaque_sender_event : event := {|
  get_messages := [];
  get_sender_id := "webchat_alice";
  get_self_id := "10001";
  get_sender_name := "Alice";
  get_platform_name := "webchat";
|}.

Definition two_texts_with_default : meme_params := {|
  min_images := 1; max_images := 1;
  min_texts := 2; max_texts := 2;
  default_texts := ["!"];
|}.

(** User 42 writes, mentioning themself first, in reply to a message
    that mentions user 12345678 and then user 42; the mention of user 42
    is repeated at the end. *)
Definition reply_event : event := {|
  get_messages :=
    [At "42" None;
     Reply [At "12345678" None; At "42" None] (Some "Carol") (Some "7");
     Plain "meme";
     At "42" None];
  get_sender_id := "42";
  get_self_id := "10001";
  get_sender_name := "Dave";
  get_platform_name := "aiocqhttp";
|}.

(** ** core/meme.py: the catalog, [find_meme] and [generate_meme] *)

(** What the plugin reads from a [Meme] of the rendering library: its
    key, its keywords ([keywords] / [info.keywords]) and its parameter
    constraints. *)
Record meme : Type := {
  key : string;
  keywords : list string;
  params : meme_params;
}.

(** [self.meme_keywords]: the keywords of every meme, in catalog order. *)
Definition meme_keywords_of (memes : list meme) : list string :=
  flat_map keywords memes.

(** [x in l] on a list of strings. *)
Definition py_in (x : string) (l : list string) : bool :=
  existsb (String.eqb x) l.

Definition find_meme (memes : list meme) (keyword : string) : option meme :=
  List.find (fun m => String.eqb keyword (key m) || py_in keyword (keywords m))
    memes.

Definition is_meme_keyword (memes : list meme) (meme_name : string) : bool :=
  py_in meme_name (meme_keywords_of memes).

(** The rendering library: [run_sync(meme)(images=..., texts=..., args=...)]
    of the older versions, which takes the image data only, and
    [meme.generate(images, texts, options)] of the newer ones, which takes
    labelled images. Either may raise. *)
Record renderer : Type := {
  is_py_version : bool;
  render_py : meme -> list bytes -> list string -> gmap string pyval
              -> result bytes;
  render_rs : meme -> list (string * bytes) -> list string
              -> gmap string pyval -> result bytes;
}.

Definition generate_meme (w : world) (rd : renderer) (memes : list meme)
    (ev : event) (keyword : string) : IO (option bytes) :=
  match find_meme memes keyword with
  | None => ret None
  | Some m =>
      collected <- collect_params w ev (params m) ;;
      let '(imgs, txts, opts) := collected in
      if is_py_version rd then
        image <- lift (render_py rd m (map snd imgs) txts opts) ;;
        ret (Some image)
      else
        image <- lift (render_rs rd m imgs txts opts) ;;
        ret (Some image)
  end.

(** ** main.py: the commands and the message handler *)

(** The plugin configuration as the handlers read it, with the copy of
    the disabled list last written by [save_config]. *)
Record plugin_conf : Type := {
  need_prefix : bool;
  extra_prefix : string;
  fuzzy_match : bool;
  is_compress_image : bool;
  memes_disabled_list : list string;
  saved_disabled_list : list string;
}.

Definition set_disabled (conf : plugin_conf) (l : list string) : plugin_conf :=
  {| need_prefix := need_prefix conf;
     extra_prefix := extra_prefix conf;
     fuzzy_match := fuzzy_match conf;
     is_compress_image := is_compress_image conf;
     memes_disabled_list := l;
     saved_disabled_list := saved_disabled_list conf |}.

(** [self.conf.save_config()]. *)
Definition save_config (conf : plugin_conf) : plugin_conf :=
  {| need_prefix := need_prefix conf;
     extra_prefix := extra_prefix conf;
     fuzzy_match := fuzzy_match conf;
     is_compress_image := is_compress_image conf;
     memes_disabled_list := memes_disabled_list conf;
     saved_disabled_list := memes_disabled_list conf |}.

(** The plain-text replies of the two commands, by their wording:
    "no meme given", "meme: X does not exist", "meme: X is already
    disabled", "disabled meme: X", "meme: X is not disabled". *)
Inductive reply : Type :=
| MsgUnspecified
| MsgNotExist (meme_name : string)
| MsgAlreadyDisabled (meme_name : string)
| MsgDisabled (meme_name : string)
| MsgNotDisabled (meme_name : string).

(** [l.remove(x)]: the first occurrence goes; [ValueError] without one. *)
Fixpoint py_list_remove (x : string) (l : list string) : result (list string) :=
  match l with
  | [] => Raise ValueError
  | y :: l' =>
      if String.eqb y x then Ok l'
      else match py_list_remove x l' with
           | Ok r => Ok (y :: r)
           | Raise e => Raise e
           end
  end.

(** The command that disables a meme. *)
Definition add_supervisor (memes : list meme) (conf : plugin_conf)
    (meme_name : option string) : result (plugin_conf * reply) :=
  match truthy_str meme_name with
  | None => Ok (conf, MsgUnspecified)
  | Some name =>
      if negb (is_meme_keyword memes name) then Ok (conf, MsgNotExist name)
      else if py_in name (memes_disabled_list conf)
      then Ok (conf, MsgAlreadyDisabled name)
      else
        let conf := set_disabled conf (memes_disabled_list conf ++ [name]) in
        Ok (save_config conf, MsgDisabled name)
  end.

(** The command that enables a meme again. Its replies reuse the
    wording of [add_supervisor] where the source does. *)
Definition remove_supervisor (memes : list meme) (conf : plugin_conf)
    (meme_name : option string) : result (plugin_conf * reply) :=
  match truthy_str meme_name with
  | None => Ok (conf, MsgUnspecified)
  | Some name =>
      if negb (is_meme_keyword memes name) then Ok (conf, MsgNotExist name)
      else if negb (py_in name (memes_disabled_list conf))
      then Ok (conf, MsgNotDisabled name)
      else
        match py_list_remove name (memes_disabled_list conf) with
        | Ok l => Ok (save_config (set_disabled conf l), MsgDisabled name)
        | Raise e => Raise e
        end
  end.

(** [s.removeprefix(p)]. *)
Definition py_removeprefix (p s : string) : string :=
  if py_startswith p s then py_drop (String.length p) s else s.

(** [try: body except Exception: handler]. *)
Definition try_except {A} (body : IO A) (handler : exn -> IO A) : IO A :=
  fun tr =>
    match body tr with
    | (Ok a, tr') => (Ok a, tr')
    | (Raise e, tr') => handler e tr'
    end.

(** What [meme_handle] yields: nothing, or the image. (The deadline of
    [asyncio.wait_for] and its "timed out" reply are outside the model.) *)
Inductive handled : Type :=
| NoReply
| ReplyImage (image : bytes).

(** Lines 102-117 of [meme_handle]: the keyword the handler goes on to
    render, if any. *)
Definition handle_keyword (memes : list meme) (conf : plugin_conf)
    (message_str : string) (is_at_or_wake_command : bool)
    : result (option string) :=
  if need_prefix conf && negb is_at_or_wake_command then Ok None
  else if str_nonempty (extra_prefix conf)
          && negb (py_startswith (extra_prefix conf) message_str)
  then Ok None
  else
    let param := py_removeprefix (extra_prefix conf) message_str in
    if negb (str_nonempty param) then Ok None
    else
      match match_meme_keyword (meme_keywords_of memes) param (fuzzy_match conf) with
      | Raise e => Raise e
      | Ok None => Ok None
      | Ok (Some keyword) =>
          if negb (str_nonempty keyword)
             || py_in keyword (memes_disabled_list conf)
          then Ok None
          else Ok (Some keyword)
      end.

(** [compress_image] of the plugin's utilities, which is not part of
    the sources at hand, is a parameter: it may return nothing or raise. *)
Definition meme_handle (w : world) (rd : renderer)
    (compress_image : bytes -> result (option bytes))
    (memes : list meme) (conf : plugin_conf) (ev : event)
    (message_str : string) (is_at_or_wake_command : bool) : IO handled :=
  target <- lift (handle_keyword memes conf message_str is_at_or_wake_command) ;;
  match target with
  | None => ret NoReply
  | Some keyword =>
      attempt <- try_except
                   (image <- generate_meme w rd memes ev keyword ;;
                    ret (Some image))
                   (fun _ => ret None) ;;
      match attempt with
      | None => ret NoReply
      | Some image =>
          let image :=
            match truthy_bytes image with
            | Some data =>
                if is_compress_image conf then
                  match compress_image data with
                  | Ok smaller =>
                      match truthy_bytes smaller with
                      | Some s => Some s
                      | None => image
                      end
                  | Raise _ => image
                  end
                else image
            | None => image
            end in
          match truthy_bytes image with
          | Some data => ret (ReplyImage data)
          | None => ret NoReply
          end
      end
  end.

(** ** Notions used to state the properties of the catalog and commands *)

(** [keyword] is the key or one of the keywords of [m]. *)
Definition answers_to (m : meme) (keyword : string) : Prop :=
  keyword = key m \/ keyword ∈ keywords m.

(** The disabled list has no duplicate, holds catalog keywords only, and
    is the list last saved. *)
Definition conf_ok (memes : list meme) (conf : plugin_conf) : Prop :=
  NoDup (memes_disabled_list conf)
  /\ (forall k, k ∈ memes_disabled_list conf -> k ∈ meme_keywords_of memes)
  /\ saved_disabled_list conf = memes_disabled_list conf.

(** ** Notions used to state further properties of the collector *)

(** A text the segment pass can collect: not empty, without a space or
    an "=", and not starting with "@". *)
Definition plain_word (t : string) : bool :=
  str_nonempty t
  && negb (py_contains_char " " t)
  && negb (py_contains_char "=" t)
  && negb (py_startswith "@" t).

(** How one state grows out of another: images and texts are only
    added at the end, and every added text is a plain word. *)
Definition grows (st st' : collected) : Prop :=
  images st `prefix_of` images st'
  /\ exists added, texts st' = texts st ++ added
                   /\ Forall (fun t => plain_word t = true) added.

(** [segs] without its mention segments. *)
Definition without_mentions (segs : list segment) : list segment :=
  List.filter (fun seg => negb (is_At seg)) segs.


(** A message with three words after the command, and constraints that
    ask for four texts but accept two. *)
Definition three_words_event : event := {|
  get_messages := [Plain "say a b c"];
  get_sender_id := "87654321";
  get_self_id := "10001";
  get_sender_name := "Alice";
  get_platform_name := "aiocqhttp";
|}.

Definition four_texts_cut_to_two : meme_params := {|
  min_images := 0; max_images := 0;
  min_texts := 4; max_texts := 2;
  default_texts := ["x"; "y"];
|}.

(** A platform on which every download returns data. *)
Definition open_world : world := {|
  http_get := fun _ _ => Some png_bytes;
  path_is_file := path_is_file stub_world;
  path_read_bytes := path_read_bytes stub_world;
  get_stranger_info := get_stranger_info stub_world;
  b64decode := b64decode stub_world;
|}.

Definition two_images : meme_params := {|
  min_images := 2; max_images := 2;
  min_texts := 0; max_texts := 0;
  default_texts := [];
|}.

(** A reply to a message of Carol's, with words in both. *)
Definition quoting_event : event := {|
  get_messages :=
    [Reply [Plain "old quoted"] (Some "Carol") (Some "7");
     Plain "punch @12345678 hard"];
  get_sender_id := "87654321";
  get_self_id := "10001";
  get_sender_name := "Alice";
  get_platform_name := "aiocqhttp";
|}.

(** ** A sample catalog and configuration *)

Definition petpet : meme := {|
  key := "petpet";
  keywords := ["pat"; "rub"];
  params := {| min_images := 1; max_images := 1;
               min_texts := 0; max_texts := 0; default_texts := [] |};
|}.

Definition punch : meme := {|
  key := "punch";
  keywords := ["punch"];
  params := one_image_one_text;
|}.

Definition sample_memes : list meme := [petpet; punch].

Definition sample_conf : plugin_conf := {|
  need_prefix := false;
  extra_prefix := "/";
  fuzzy_match := false;
  is_compress_image := false;
  memes_disabled_list := [];
  saved_disabled_list := [];
|}.

(** A renderer that returns the first image it is given. *)
Definition echo_renderer : renderer := {|
  is_py_version := false;
  render_py := fun _ imgs _ _ =>
    match imgs with d :: _ => Ok d | [] => Raise (ExternalError "MemeFeedback") end;
  render_rs := fun _ imgs _ _ =>
    match imgs with (_, d) :: _ => Ok d | [] => Raise (ExternalError "MemeFeedback") end;
|}.

(* ================================================================== *)
(** * Part II. Properties                                              *)
(* ================================================================== *)

Example py_split_ex :
  py_split "  punch   @12345678 hard " = ["punch"; "@12345678"; "hard"].
Proof. reflexivity. Qed.

Example py_split_sep_ex :
  py_split_sep " " "a  b " = ["a"; ""; "b"; ""].
Proof. reflexivity. Qed.

Example py_strip_ex : py_strip "  a b  " = "a b".
Proof. reflexivity. Qed.

Example py_replace_ex :
  py_replace "https://" "http://" "https://q4/x?u=https://y" = "http://q4/x?u=http://y".
Proof. reflexivity. Qed.

Example py_slice_to_ex :
  py_slice_to [1; 2; 3]%nat 2 = [1; 2]%nat /\ py_slice_to [1; 2; 3]%nat (-1) = [1; 2]%nat
  /\ py_slice_to [1; 2; 3]%nat (-5) = [] /\ py_slice_to [1; 2; 3]%nat 7 = [1; 2; 3]%nat.
Proof. repeat split. Qed.

Example match_exact_ex :
  match_meme_keyword ["pat"; "punch"] "punch @12345678 hard" false = Ok (Some "punch").
Proof. reflexivity. Qed.

Example match_exact_blank :
  match_meme_keyword ["pat"; "punch"] "   " false = Raise IndexError.
Proof. reflexivity. Qed.

Example match_fuzzy_ex :
  match_meme_keyword ["at"; "pat"] "xx pat yy" true = Ok (Some "at").
Proof. reflexivity. Qed.

(** [int]: blanks at the ends, sign and underscores are accepted; a
    separator FS at the front, a superscript digit or a word are not. *)
Example py_int_accepts :
  py_int " 42 " = Ok 42 /\ py_int "-7" = Ok (-7) /\ py_int "1_000" = Ok 1000
  /\ py_int (String (ascii_of_nat 160) "42") = Ok 42
  /\ py_int "007" = Ok 7.
Proof. repeat split. Qed.

Example py_int_rejects :
  py_int (String (ascii_of_nat 28) "42") = Raise ValueError
  /\ py_int (String (ascii_of_nat 178) "") = Raise ValueError
  /\ py_int "all" = Raise ValueError /\ py_int "" = Raise ValueError
  /\ py_int "1__0" = Raise ValueError /\ py_int "+ 1" = Raise ValueError.
Proof. repeat split. Qed.

(** The digit limit: 4300 digits are read, 4301 are refused, although
    [str.isdigit] holds of both. *)
Example py_int_digit_limit :
  is_ok (py_int (str_repeat "1" 4300)) = true
  /\ py_int (str_repeat "1" 4301) = Raise ValueError
  /\ py_isdigit (str_repeat "1" 4301) = true.
Proof. repeat split; vm_compute; reflexivity. Qed.

(** ** Strings *)

Lemma str_app_nil_r (s : string) : s +:+ "" = s.
Proof. induction s as [|c s IH]; simpl; [done | by rewrite IH]. Qed.

Lemma str_app_assoc (a b c : string) : (a +:+ b) +:+ c = a +:+ (b +:+ c).
Proof. induction a as [|x a IH]; simpl; [done | by rewrite IH]. Qed.

Lemma str_app_snoc (a : string) (c : ascii) (s : string) :
  (a +:+ String c "") +:+ s = a +:+ String c s.
Proof. by rewrite str_app_assoc. Qed.

Lemma str_nonempty_true (s : string) : str_nonempty s = true <-> s <> "".
Proof. destruct s; simpl; split; intros; congruence. Qed.

Lemma str_nonempty_app_r (a b : string) :
  str_nonempty b = true -> str_nonempty (a +:+ b) = true.
Proof. destruct a; simpl; auto. Qed.

Lemma str_forall_app (p : ascii -> bool) (a b : string) :
  str_forall p (a +:+ b) = str_forall p a && str_forall p b.
Proof.
  induction a as [|c a IH]; simpl; [done |].
  rewrite IH. by rewrite andb_assoc.
Qed.

(** [p] is a prefix of [s] exactly when [s] is [p] followed by something. *)
Lemma py_startswith_spec (p s : string) :
  py_startswith p s = true <-> exists post, s = p +:+ post.
Proof.
  unfold py_startswith. revert s.
  induction p as [|c p IH]; intros s.
  - destruct s; simpl; split; eauto.
  - destruct s as [|d s]; simpl.
    + split; [discriminate | intros [post H]; discriminate].
    + destruct (ascii_dec c d) as [->|Hne].
      * rewrite IH. split; intros [post H]; exists post; congruence.
      * split; [discriminate | intros [post H]; congruence].
Qed.

Lemma py_contains_spec (k s : string) :
  py_contains k s = true <-> occurs_in k s.
Proof.
  induction s as [|c s IH].
  - cbn [py_contains]. rewrite orb_false_r, py_startswith_spec. split.
    + intros [post H]. by exists "", post.
    + intros (pre & post & H). destruct pre; [by exists post | discriminate].
  - cbn [py_contains]. rewrite orb_true_iff, IH, py_startswith_spec. split.
    + intros [[post H] | (pre & post & H)].
      * by exists "", post.
      * exists (String c pre), post. simpl. by rewrite H.
    + intros (pre & post & H). destruct pre as [|d pre].
      * left. by exists post.
      * right. exists pre, post. simpl in H. congruence.
Qed.

(** ** [str.split()] and the first whitespace-delimited token *)

Lemma split_ws_word (acc k post : string) :
  no_space k = true ->
  split_ws acc (k +:+ post) = split_ws (acc +:+ k) post.
Proof.
  unfold no_space. revert acc. induction k as [|c k IH]; intros acc Hk.
  - simpl. by rewrite str_app_nil_r.
  - simpl in Hk. apply andb_true_iff in Hk as [Hc Hk].
    simpl. apply negb_true_iff in Hc. rewrite Hc.
    rewrite IH by done. by rewrite str_app_snoc.
Qed.

Lemma split_ws_skip (pre s : string) :
  all_space pre = true -> split_ws "" (pre +:+ s) = split_ws "" s.
Proof.
  unfold all_space. induction pre as [|c pre IH]; intros Hpre; [done |].
  simpl in Hpre. apply andb_true_iff in Hpre as [Hc Hpre].
  simpl. rewrite Hc. simpl. by apply IH.
Qed.

Lemma split_ws_boundary (acc post : string) :
  str_nonempty acc = true -> at_boundary post = true ->
  exists rest, split_ws acc post = acc :: rest.
Proof.
  intros Hacc Hpost. destruct post as [|c post]; simpl in *.
  - rewrite Hacc. by exists [].
  - rewrite Hpost, Hacc. by eexists.
Qed.

Lemma first_token_split (text k : string) :
  first_token text k -> exists rest, py_split text = k :: rest.
Proof.
  intros (pre & post & -> & Hpre & Hne & Hk & Hpost).
  unfold py_split. rewrite split_ws_skip by done.
  rewrite split_ws_word by done. simpl.
  by apply split_ws_boundary.
Qed.

Lemma split_ws_head (acc s k : string) (rest : list string) :
  no_space acc = true ->
  split_ws acc s = k :: rest ->
  if str_nonempty acc
  then exists mid post,
         s = mid +:+ post /\ k = acc +:+ mid
         /\ no_space mid = true /\ at_boundary post = true
  else first_token s k.
Proof.
  revert acc. induction s as [|c s IH]; intros acc Hacc Hsplit.
  - simpl in Hsplit. destruct (str_nonempty acc) eqn:Hne; [| discriminate].
    inversion Hsplit; subst. exists "", "". by rewrite !str_app_nil_r.
  - simpl in Hsplit. destruct (py_isspace c) eqn:Hc.
    + destruct (str_nonempty acc) eqn:Hne.
      * inversion Hsplit; subst. exists "", (String c s).
        rewrite !str_app_nil_r. simpl. by rewrite Hc.
      * apply (IH "") in Hsplit; [| done]. simpl in Hsplit.
        destruct Hsplit as (pre & post & -> & Hpre & Hk).
        exists (String c pre), post. unfold all_space in *. simpl.
        by rewrite Hc, Hpre.
    + assert (Hacc' : no_space (acc +:+ String c "") = true).
      { unfold no_space in *. rewrite str_forall_app, Hacc. simpl.
        by rewrite Hc. }
      apply IH in Hsplit; [| done].
      rewrite str_nonempty_app_r in Hsplit by done.
      destruct Hsplit as (mid & post & -> & -> & Hmid & Hpost).
      destruct (str_nonempty acc) eqn:Hne.
      * exists (String c mid), post. simpl.
        rewrite str_app_snoc. unfold no_space in *. simpl.
        by rewrite Hc, Hmid.
      * destruct acc; [| discriminate]. simpl.
        exists "", post. simpl. unfold no_space in *. simpl.
        by rewrite Hc, Hmid.
Qed.

Lemma split_first_token (text k : string) (rest : list string) :
  py_split text = k :: rest -> first_token text k.
Proof.
  intros H. by apply (split_ws_head "" text k rest) in H.
Qed.

(** The first item of [text.split()] is the first whitespace-delimited
    token of [text], and nothing else is. *)
Lemma first_token_iff (text k : string) :
  first_token text k <-> exists rest, py_split text = k :: rest.
Proof.
  split; [apply first_token_split |].
  intros [rest H]. by eapply split_first_token.
Qed.

Lemma first_token_unique (text k k' : string) :
  first_token text k -> first_token text k' -> k = k'.
Proof.
  intros [r H]%first_token_split [r' H']%first_token_split. congruence.
Qed.

Lemma py_split_blank (text : string) :
  all_space text = true -> py_split text = [].
Proof.
  intros H. unfold py_split.
  rewrite <- (str_app_nil_r text). by rewrite split_ws_skip.
Qed.

(** ** The keyword matcher *)

Lemma py_next_in {A} (cond : A -> result bool) (l : list A) (k : A) :
  py_next cond l = Ok (Some k) -> k ∈ l /\ cond k = Ok true.
Proof.
  induction l as [|x l IH]; simpl; [discriminate |].
  destruct (cond x) as [[|]|e] eqn:Hx; intros H.
  - inversion H; subst. split; [apply list_elem_of_here | done].
  - destruct (IH H) as [Hin Hk]. split; [by apply list_elem_of_further | done].
  - discriminate.
Qed.

(** With a condition that cannot raise, [py_next] returns the item at
    the least index whose condition holds. *)
Lemma py_next_pure_some {A} (f : A -> bool) (l : list A) (k : A) :
  py_next (fun x => Ok (f x)) l = Ok (Some k) <->
  exists i, l !! i = Some k /\ f k = true
            /\ forall j x, (j < i)%nat -> l !! j = Some x -> f x = false.
Proof.
  induction l as [|y l IH]; simpl.
  - split; [discriminate | intros (i & H & _); by destruct i].
  - destruct (f y) eqn:Hy.
    + split.
      * intros H. inversion H; subst. exists 0%nat.
        repeat split; [done | intros j x Hj; lia].
      * intros ([|i] & Hi & Hk & Hmin).
        -- simpl in Hi. congruence.
        -- specialize (Hmin 0%nat y). simpl in Hmin.
           rewrite Hmin in Hy by (done || lia). discriminate.
    + rewrite IH. split.
      * intros (i & Hi & Hk & Hmin). exists (S i). repeat split; [done.. |].
        intros [|j] x Hj Hx; simpl in Hx.
        -- congruence.
        -- apply (Hmin j); [lia | done].
      * intros ([|i] & Hi & Hk & Hmin); simpl in Hi.
        -- congruence.
        -- exists i. repeat split; [done.. |].
           intros j x Hj Hx. apply (Hmin (S j)); [lia | done].
Qed.

Lemma py_next_pure_none {A} (f : A -> bool) (l : list A) :
  py_next (fun x => Ok (f x)) l = Ok None <-> forall x, x ∈ l -> f x = false.
Proof.
  induction l as [|y l IH]; simpl.
  - split; [intros _ x Hx; by apply elem_of_nil in Hx | done].
  - destruct (f y) eqn:Hy.
    + split; [discriminate |]. intros H.
      rewrite H in Hy; [discriminate | apply list_elem_of_here].
    + rewrite IH. split.
      * intros H x [->|Hx]%elem_of_cons; auto.
      * intros H x Hx. apply H. by apply list_elem_of_further.
Qed.

Lemma py_next_pure_ok {A} (f : A -> bool) (l : list A) (e : exn) :
  py_next (fun x => Ok (f x)) l <> Raise e.
Proof.
  induction l as [|y l IH]; simpl; [discriminate |].
  by destruct (f y).
Qed.

Lemma not_contains_iff (k s : string) :
  py_contains k s = false <-> ~ occurs_in k s.
Proof.
  rewrite <- py_contains_spec. by destruct (py_contains k s).
Qed.

(** C7. In fuzzy mode the matcher returns the catalog keyword of least
    index that occurs in the text as a substring, whatever the positions
    of the occurrences; it returns [None] exactly when no keyword occurs;
    and it does not raise. *)
Theorem fuzzy_match_first_in_catalog (meme_keywords : list string) (text : string) :
  (forall k,
     match_meme_keyword meme_keywords text true = Ok (Some k) <->
     exists i, meme_keywords !! i = Some k /\ occurs_in k text
               /\ forall j k', (j < i)%nat -> meme_keywords !! j = Some k' ->
                               ~ occurs_in k' text)
  /\ (match_meme_keyword meme_keywords text true = Ok None <->
      forall k, k ∈ meme_keywords -> ~ occurs_in k text)
  /\ (forall e, match_meme_keyword meme_keywords text true <> Raise e).
Proof.
  unfold match_meme_keyword. split; [| split].
  - intros k. rewrite py_next_pure_some. split.
    + intros (i & Hi & Hk & Hmin). exists i.
      rewrite <- py_contains_spec. repeat split; [done.. |].
      intros j k' Hj Hk'. apply not_contains_iff. by apply (Hmin j).
    + intros (i & Hi & Hk & Hmin). exists i.
      rewrite py_contains_spec. repeat split; [done.. |].
      intros j k' Hj Hk'. apply not_contains_iff. by apply (Hmin j).
  - rewrite py_next_pure_none. split.
    + intros H k Hk. apply not_contains_iff. by apply H.
    + intros H k Hk. apply not_contains_iff. by apply H.
  - intros e. apply py_next_pure_ok.
Qed.

(** Two keywords that both occur: the earlier catalog entry wins although
    the later one occurs first in the text and is longer. *)
Example fuzzy_catalog_order :
  match_meme_keyword ["hard"; "punch"] "punch hard" true = Ok (Some "hard").
Proof. reflexivity. Qed.

(** C6. In exact mode a returned keyword is a catalog keyword and is the
    first whitespace-delimited token of the text; since that token is
    unique, no other string is returned, wherever it occurs in the text
    and whether or not it is a prefix or suffix of the first token. *)
Theorem exact_match_only_first_token
    (meme_keywords : list string) (text k : string) :
  match_meme_keyword meme_keywords text false = Ok (Some k) ->
  k ∈ meme_keywords
  /\ first_token text k
  /\ forall t, first_token text t -> t = k.
Proof.
  unfold match_meme_keyword. intros [Hin Hcond]%py_next_in.
  destruct (py_split text) as [|t rest] eqn:Hsplit; simpl in Hcond;
    [discriminate |].
  inversion Hcond as [Heq]. apply String.eqb_eq in Heq as ->.
  assert (Hft : first_token text t) by (by eapply split_first_token).
  repeat split; [done.. |].
  intros t' Ht'. by apply (first_token_unique text).
Qed.

Lemma exact_match_only_first_token_witness :
  match_meme_keyword ["pat"; "punch"] "punch @12345678 hard" false
    = Ok (Some "punch")
  /\ "punch" ∈ ["pat"; "punch"]
  /\ first_token "punch @12345678 hard" "punch"
  /\ forall t, first_token "punch @12345678 hard" t -> t = "punch".
Proof.
  split; [reflexivity |].
  apply (exact_match_only_first_token ["pat"; "punch"] "punch @12345678 hard").
  reflexivity.
Defined.

(** A keyword that is a proper prefix of the first token, or occurs
    later in the text, is not matched in exact mode. *)
Example exact_no_prefix_match :
  match_meme_keyword ["pun"; "hard"] "punch hard" false = Ok None.
Proof. reflexivity. Qed.

(** C4 (the code departs from the claim). In exact mode, with a
    non-empty catalog, an empty or whitespace-only text makes
    [text.split()[0]] raise [IndexError], and the matcher raises it. *)
Theorem exact_match_blank_raises
    (k : string) (meme_keywords : list string) (text : string) :
  all_space text = true ->
  match_meme_keyword (k :: meme_keywords) text false = Raise IndexError.
Proof.
  intros Hblank. unfold match_meme_keyword. simpl.
  by rewrite py_split_blank.
Qed.

Lemma exact_match_blank_raises_witness :
  all_space "  " = true
  /\ match_meme_keyword ["punch"] "  " false = Raise IndexError.
Proof.
  split; [reflexivity |].
  apply (exact_match_blank_raises "punch" [] "  "). reflexivity.
Defined.

Example exact_match_empty_raises :
  match_meme_keyword ["punch"] "" false = Raise IndexError.
Proof. reflexivity. Qed.

(** With an empty catalog the condition is never evaluated. *)
Example exact_match_empty_catalog :
  match_meme_keyword [] "  " false = Ok None.
Proof. reflexivity. Qed.

(** Whenever the matcher returns a keyword it is one of the catalog. *)
Lemma match_result_known
    (meme_keywords : list string) (text k : string) (fuzzy_match : bool) :
  match_meme_keyword meme_keywords text fuzzy_match = Ok (Some k) ->
  k ∈ meme_keywords.
Proof.
  unfold match_meme_keyword. destruct fuzzy_match; intros H;
    by apply py_next_in in H as [Hin _].
Qed.

(** ** The [IO] monad *)

Lemma bind_ok {A B} (m : IO A) (k : A -> IO B) (tr tr' : trace) (b : B) :
  bind m k tr = (Ok b, tr') ->
  exists a tr1, m tr = (Ok a, tr1) /\ k a tr1 = (Ok b, tr').
Proof.
  unfold bind. destruct (m tr) as [[a|e] tr1]; [eauto | discriminate].
Qed.

Lemma bind_ret_l {A B} (a : A) (k : A -> IO B) (tr : trace) :
  bind (ret a) k tr = k a tr.
Proof. reflexivity. Qed.

Lemma bind_raise_l {A B} (e : exn) (k : A -> IO B) (tr : trace) :
  bind (raise e) k tr = (Raise e, tr).
Proof. reflexivity. Qed.

Lemma bind_eq_ok {A B} (m : IO A) (k : A -> IO B) (tr tr1 : trace) (a : A) :
  m tr = (Ok a, tr1) -> bind m k tr = k a tr1.
Proof. unfold bind. by intros ->. Qed.

Lemma bind_eq_raise {A B} (m : IO A) (k : A -> IO B) (tr tr1 : trace) (e : exn) :
  m tr = (Raise e, tr1) -> bind m k tr = (Raise e, tr1).
Proof. unfold bind. by intros ->. Qed.

(** ** Lengths and slices *)

Lemma len_lt_spec {A} (l : list A) (n : Z) :
  len_lt l n = true <-> Z.of_nat (length l) < n.
Proof. unfold len_lt. apply Z.ltb_lt. Qed.

Lemma len_lt_false {A} (l : list A) (n : Z) :
  len_lt l n = false <-> n <= Z.of_nat (length l).
Proof. unfold len_lt. apply Z.ltb_ge. Qed.


Lemma py_slice_to_length {A} (l : list A) (n : Z) :
  0 <= n -> Z.of_nat (length (py_slice_to l n)) <= n.
Proof.
  intros Hn. unfold py_slice_to.
  destruct (Z.leb_spec 0 n); [| lia].
  rewrite length_take. lia.
Qed.

Lemma py_slice_to_prefix {A} (l : list A) (n : Z) :
  exists k, py_slice_to l n = take k l.
Proof. unfold py_slice_to. destruct (0 <=? n); eauto. Qed.

Lemma py_slice_to_nil {A} (n : Z) : py_slice_to (@nil A) n = [].
Proof. unfold py_slice_to. destruct (0 <=? n); by rewrite take_nil. Qed.

(** ** The collector: bounds on the result *)

(** C1. Whenever [collect_params] returns, for constraints with
    [max_images = N >= 0] and [max_texts = M >= 0], the returned image
    list has at most [N] entries and the returned text list at most
    [M], whatever the segments and the backfill produced. *)
Theorem collect_params_within_max
    (w : world) (ev : event) (params : meme_params) (tr tr' : trace)
    (imgs : list (string * bytes)) (txts : list string)
    (opts : gmap string pyval) :
  0 <= max_images params ->
  0 <= max_texts params ->
  collect_params w ev params tr = (Ok (imgs, txts, opts), tr') ->
  Z.of_nat (length imgs) <= max_images params
  /\ Z.of_nat (length txts) <= max_texts params.
Proof.
  intros HN HM Hrun. unfold collect_params in Hrun.
  apply bind_ok in Hrun as (st & tr1 & _ & Hrun).
  apply bind_ok in Hrun as (filled & tr2 & _ & Hrun).
  inversion Hrun; subst.
  split; by apply py_slice_to_length.
Qed.

Lemma collect_params_within_max_witness :
  0 <= max_images one_image_one_text
  /\ 0 <= max_texts one_image_one_text
  /\ Z.of_nat (length [("Bob", png_bytes)]) <= max_images one_image_one_text
  /\ Z.of_nat (length ["hard"]) <= max_texts one_image_one_text.
Proof.
  split; [simpl; lia |]. split; [simpl; lia |].
  apply (collect_params_within_max stub_world punch_event one_image_one_text
           [] [StrangerInfo 12345678; HttpGet (avatar_url "12345678")]
           [("Bob", png_bytes)] ["hard"]
           (<["gender" := VStr "male"]> (<["name" := VStr "Bob"]> ∅))).
  - simpl; lia.
  - simpl; lia.
  - vm_compute. reflexivity.
Defined.

(** ** Profile lookup and avatar download *)

Lemma download_image_run (w : world) (url : string) (tr : trace) :
  _download_image w url true tr
  = (Ok (http_get w tr (py_replace "https://" "http://" url)),
     tr ++ [HttpGet (py_replace "https://" "http://" url)]).
Proof. reflexivity. Qed.

(** For an id made of digits [get_avatar] issues one download and
    returns its outcome. *)
Lemma get_avatar_digits (w : world) (user_id : string) (tr : trace) :
  py_isdigit user_id = true ->
  get_avatar w user_id tr
  = (Ok (http_get w tr (avatar_request user_id)),
     tr ++ [HttpGet (avatar_request user_id)]).
Proof.
  intros Hd. unfold get_avatar. rewrite Hd. simpl negb. cbv iota.
  rewrite bind_ret_l. apply download_image_run.
Qed.

Lemma get_extra_resolved
    (w : world) (ev : event) (target_id : string) (uid : Z)
    (info : user_info) (tr : trace) :
  get_platform_name ev = "aiocqhttp" ->
  py_int target_id = Ok uid ->
  get_stranger_info w tr uid = Ok info ->
  get_extra w ev target_id tr
  = (Ok (Some (display_name info, sex info)), tr ++ [StrangerInfo uid]).
Proof.
  intros Hplat Hint Hinfo. unfold get_extra. rewrite Hplat. simpl.
  unfold bind, lift, ask, ret. by rewrite Hint, Hinfo.
Qed.

Lemma get_extra_other_platform
    (w : world) (ev : event) (target_id : string) (tr : trace) :
  get_platform_name ev <> "aiocqhttp" ->
  get_extra w ev target_id tr = (Ok None, tr).
Proof.
  intros Hplat. unfold get_extra.
  destruct (String.eqb_spec (get_platform_name ev) "aiocqhttp"); done.
Qed.

Lemma truthy_bytes_nonempty (data : bytes) :
  data <> [] -> truthy_bytes (Some data) = Some data.
Proof. by destruct data. Qed.

(** A mention that resolves: the profile lookup answers and the avatar
    download gives non-empty data. *)
Lemma append_id_info_resolved
    (w : world) (ev : event) (target_id : string) (uid : Z)
    (info : user_info) (avatar : bytes) (st : collected) (tr : trace) :
  get_platform_name ev = "aiocqhttp" ->
  py_int target_id = Ok uid ->
  py_isdigit target_id = true ->
  get_stranger_info w tr uid = Ok info ->
  http_get w (tr ++ [StrangerInfo uid]) (avatar_request target_id)
    = Some avatar ->
  avatar <> [] ->
  _append_id_info w ev target_id st tr
  = (Ok {| images := images st ++ [(display_name info, avatar)];
           texts := texts st;
           options := <["gender" := sex info]>
                        (<["name" := VStr (display_name info)]> (options st)) |},
     tr ++ [StrangerInfo uid; HttpGet (avatar_request target_id)]).
Proof.
  intros Hplat Hint Hd Hinfo Hget Hne. unfold _append_id_info.
  erewrite bind_eq_ok by (by apply get_extra_resolved).
  cbv beta iota.
  erewrite bind_eq_ok by (by apply get_avatar_digits).
  rewrite Hget, truthy_bytes_nonempty by done.
  unfold ret, with_images, with_options. simpl.
  by rewrite <- app_assoc.
Qed.

(** ** The end-to-end scenario *)

Lemma exact_match_member (meme_keywords : list string) (text t : string)
    (rest : list string) :
  py_split text = t :: rest ->
  t ∈ meme_keywords ->
  match_meme_keyword meme_keywords text false = Ok (Some t).
Proof.
  intros Hsplit Hin. unfold match_meme_keyword. rewrite Hsplit. simpl.
  induction meme_keywords as [|k l IH]; [by apply elem_of_nil in Hin |].
  simpl. destruct (String.eqb k t) eqn:Hk.
  - apply String.eqb_eq in Hk. by subst.
  - apply IH. apply elem_of_cons in Hin as [->|Hin]; [| done].
    by rewrite String.eqb_refl in Hk.
Qed.

(** C2. The message "punch @12345678 hard" on a platform whose profile
    lookup and avatar download succeed for user 12345678, with exact
    matching, a catalog containing "punch" and constraints of exactly
    one image and one text: the matcher returns "punch"; the collector
    returns the avatar of user 12345678 as the only image, the texts
    ["hard"], and options holding that user's name and gender. *)
Theorem punch_scenario
    (w : world) (ev : event) (params : meme_params)
    (meme_keywords : list string) (info : user_info) (avatar : bytes)
    (tr : trace) :
  get_messages ev = [Plain "punch @12345678 hard"] ->
  get_platform_name ev = "aiocqhttp" ->
  "punch" ∈ meme_keywords ->
  min_images params = 1 -> max_images params = 1 ->
  min_texts params = 1 -> max_texts params = 1 ->
  get_stranger_info w tr 12345678 = Ok info ->
  http_get w (tr ++ [StrangerInfo 12345678]) (avatar_url "12345678")
    = Some avatar ->
  avatar <> [] ->
  match_meme_keyword meme_keywords "punch @12345678 hard" false
    = Ok (Some "punch")
  /\ collect_params w ev params tr
     = (Ok ([(display_name info, avatar)], ["hard"],
            <["gender" := sex info]>
              (<["name" := VStr (display_name info)]> ∅)),
        tr ++ [StrangerInfo 12345678; HttpGet (avatar_url "12345678")]).
Proof.
  intros Hchain Hplat Hkw Hmin Hmax Htmin Htmax Hinfo Hget Hne.
  split.
  { by apply (exact_match_member _ _ _ ["@12345678"; "hard"]). }
  assert (Hpass : segment_pass w ev empty_collected tr
    = (Ok {| images := [(display_name info, avatar)];
             texts := ["hard"];
             options := <["gender" := sex info]>
                          (<["name" := VStr (display_name info)]> ∅) |},
       tr ++ [StrangerInfo 12345678; HttpGet (avatar_url "12345678")])).
  { unfold segment_pass. rewrite Hchain. simpl. rewrite bind_ret_l.
    assert (Hmention : process_token w ev "@12345678" empty_collected tr
      = (Ok {| images := [(display_name info, avatar)];
               texts := [];
               options := <["gender" := sex info]>
                            (<["name" := VStr (display_name info)]> ∅) |},
         tr ++ [StrangerInfo 12345678; HttpGet (avatar_url "12345678")])).
    { unfold process_token. simpl.
      by apply (append_id_info_resolved w ev "12345678" 12345678 info avatar). }
    erewrite (bind_eq_ok (bind _ _)); [reflexivity |].
    erewrite bind_eq_ok by exact Hmention. reflexivity. }
  unfold collect_params. erewrite bind_eq_ok by exact Hpass.
  unfold image_backfill, len_lt. rewrite Hmin. simpl.
  unfold text_backfill, len_lt. rewrite Hmax, Htmin, Htmax. reflexivity.
Qed.

Lemma punch_scenario_witness :
  (get_messages punch_event = [Plain "punch @12345678 hard"]
   /\ get_platform_name punch_event = "aiocqhttp"
   /\ "punch" ∈ ["pat"; "punch"]
   /\ get_stranger_info stub_world [] 12345678
      = Ok {| nickname := Some "Bob"; sex := VStr "male" |}
   /\ http_get stub_world [StrangerInfo 12345678] (avatar_url "12345678")
      = Some png_bytes)
  /\ match_meme_keyword ["pat"; "punch"] "punch @12345678 hard" false
     = Ok (Some "punch")
  /\ collect_params stub_world punch_event one_image_one_text []
     = (Ok ([("Bob", png_bytes)], ["hard"],
            <["gender" := VStr "male"]> (<["name" := VStr "Bob"]> ∅)),
        [StrangerInfo 12345678; HttpGet (avatar_url "12345678")]).
Proof.
  split.
  { repeat split; try reflexivity. repeat constructor. }
  apply (punch_scenario stub_world punch_event one_image_one_text
           ["pat"; "punch"] {| nickname := Some "Bob"; sex := VStr "male" |}
           png_bytes []); try reflexivity.
  - repeat constructor.
  - discriminate.
Defined.

(** ** Text backfill *)

Lemma text_backfill_applies (params : meme_params) (txts : list string) :
  Z.of_nat (length txts) < min_texts params ->
  default_texts params <> [] ->
  text_backfill params txts = txts ++ default_texts params.
Proof.
  intros Hlt Hdef. unfold text_backfill, len_lt.
  destruct (Z.ltb_spec (Z.of_nat (length txts)) (min_texts params)); [| lia].
  by destruct (default_texts params).
Qed.

Lemma text_backfill_skips (params : meme_params) (txts : list string) :
  min_texts params <= Z.of_nat (length txts) \/ default_texts params = [] ->
  text_backfill params txts = txts.
Proof.
  intros H. unfold text_backfill, len_lt.
  destruct (Z.ltb_spec (Z.of_nat (length txts)) (min_texts params));
    [| done].
  destruct H as [H | ->]; [lia | done].
Qed.

(** ** A message that opens with a mention *)

Lemma opt_str_eqb_refl (o : option string) : opt_str_eqb o o = true.
Proof. destruct o; simpl; [apply String.eqb_refl | done]. Qed.

Lemma opt_str_eqb_eq (a b : option string) :
  opt_str_eqb a b = true <-> a = b.
Proof.
  destruct a, b; simpl; try (split; congruence).
  rewrite String.eqb_eq. split; congruence.
Qed.

(** A mention equals a component exactly when the component is the same
    mention. *)
Lemma seg_eqb_At (qq : string) (name : option string) (s : segment) :
  seg_eqb (At qq name) s = true <-> s = At qq name.
Proof.
  destruct s; simpl; try (split; congruence).
  rewrite andb_true_iff, String.eqb_eq, opt_str_eqb_eq.
  split; [intros [-> ->]; done | intros H; by inversion H].
Qed.

(** A mention equal to the first segment of the chain is passed over:
    nothing is collected and nothing is requested. *)
Lemma process_segment_first_mention
    (w : world) (ev : event) (chain : list segment)
    (qq : string) (mname : option string) (name : string)
    (st : collected) (tr : trace) :
  chain !! 0%nat = Some (At qq mname) ->
  _process_segment w ev chain (At qq mname) name st tr = (Ok st, tr).
Proof.
  intros Hhd. destruct chain as [|c chain]; [done |].
  simpl in Hhd. inversion Hhd; subst.
  unfold _process_segment. simpl py_head.
  unfold bind, lift.
  replace (seg_eqb (At qq mname) (At qq mname)) with true; [done |].
  symmetry. by apply seg_eqb_At.
Qed.

(** Any other mention is resolved. *)
Lemma process_segment_other_mention
    (w : world) (ev : event) (chain : list segment) (first : segment)
    (qq : string) (mname : option string) (name : string)
    (st : collected) (tr : trace) :
  chain !! 0%nat = Some first ->
  first <> At qq mname ->
  _process_segment w ev chain (At qq mname) name st tr
  = _append_id_info w ev qq st tr.
Proof.
  intros Hhd Hne. destruct chain as [|c chain]; [done |].
  simpl in Hhd. inversion Hhd; subst.
  unfold _process_segment. simpl py_head. unfold bind at 1, lift.
  destruct (seg_eqb (At qq mname) first) eqn:Heq; [| done].
  apply seg_eqb_At in Heq. congruence.
Qed.

(** C5 (as the code has it). For the chain [Mention; PlainText "caption"]
    with no image or text backfill applicable, the mention is not
    resolved (no lookup or download is issued, nothing is added) and the
    single word of the text, being its first token, is discarded: images,
    texts and options are all empty. *)
Theorem leading_mention_single_word
    (w : world) (ev : event) (params : meme_params) (tr : trace)
    (qq : string) (mname : option string) :
  get_messages ev = [At qq mname; Plain "caption"] ->
  min_images params = 0 ->
  min_texts params <= 0 \/ default_texts params = [] ->
  collect_params w ev params tr = (Ok ([], [], ∅), tr).
Proof.
  intros Hchain Hmin Htexts.
  assert (Hpass : segment_pass w ev empty_collected tr
                  = (Ok empty_collected, tr)).
  { unfold segment_pass. rewrite Hchain. simpl find. cbv iota.
    rewrite bind_ret_l. cbn [for_each].
    erewrite bind_eq_ok by (by apply process_segment_first_mention).
    reflexivity. }
  unfold collect_params. erewrite bind_eq_ok by exact Hpass.
  unfold image_backfill, len_lt. rewrite Hmin. simpl.
  unfold bind, ret. simpl. rewrite py_slice_to_nil.
  rewrite text_backfill_skips by (simpl; tauto).
  by rewrite py_slice_to_nil.
Qed.

Lemma leading_mention_single_word_witness :
  (get_messages mention_caption_event
     = [At "10001" (Some "bot"); Plain "caption"]
   /\ min_images no_minimum = 0
   /\ (min_texts no_minimum <= 0 \/ default_texts no_minimum = []))
  /\ collect_params stub_world mention_caption_event no_minimum []
     = (Ok ([], [], ∅), []).
Proof.
  split.
  { repeat split. left. simpl. lia. }
  apply (leading_mention_single_word stub_world mention_caption_event
           no_minimum [] "10001" (Some "bot")).
  - reflexivity.
  - reflexivity.
  - left. simpl. lia.
Defined.

(** The scenario as the specification words it: the texts are not
    ["caption"]. *)
Lemma leading_mention_caption_counterexample :
  get_messages mention_caption_event
    = [At (get_self_id mention_caption_event) (Some "bot"); Plain "caption"]
  /\ min_images no_minimum = 0
  /\ fst (collect_params stub_world mention_caption_event no_minimum [])
     <> Ok ([], ["caption"], ∅).
Proof.
  split; [reflexivity |]. split; [reflexivity |].
  vm_compute. discriminate.
Qed.

(** With a command word in front, the caption is collected. *)
Example leading_mention_with_command :
  fst (collect_params stub_world
         {| get_messages := [At "10001" (Some "bot"); Plain "meme caption"];
            get_sender_id := "87654321"; get_self_id := "10001";
            get_sender_name := "Alice"; get_platform_name := "aiocqhttp" |}
         no_minimum [])
  = Ok ([], ["caption"], ∅).
Proof. vm_compute. reflexivity. Qed.

(** C9. When [collect_params] returns, its texts are cut from the
    list [full] made of the texts left by the segment pass, followed by
    the default texts exactly when there are fewer than [min_texts] of
    them and the defaults are not empty. The cut keeps the first
    [max_texts] items of [full] and nothing else; for a negative
    [max_texts] the slice [texts[:max_texts]] keeps all but the last
    [-max_texts] items. *)
Theorem text_backfill_appends_defaults
    (w : world) (ev : event) (params : meme_params) (tr tr' : trace)
    (imgs : list (string * bytes)) (txts : list string)
    (opts : gmap string pyval) :
  collect_params w ev params tr = (Ok (imgs, txts, opts), tr') ->
  exists st tr1 full,
    segment_pass w ev empty_collected tr = (Ok st, tr1)
    /\ ((Z.of_nat (length (texts st)) < min_texts params
         /\ default_texts params <> []
         /\ full = texts st ++ default_texts params)
        \/ ((min_texts params <= Z.of_nat (length (texts st))
             \/ default_texts params = [])
            /\ full = texts st))
    /\ (0 <= max_texts params ->
        txts = take (Z.to_nat (max_texts params)) full)
    /\ (max_texts params < 0 ->
        txts = take (length full - Z.to_nat (- max_texts params)) full).
Proof.
  intros Hrun. unfold collect_params in Hrun.
  apply bind_ok in Hrun as (st & tr1 & Hpass & Hrun).
  apply bind_ok in Hrun as (filled & tr2 & _ & Hrun).
  inversion Hrun; subst.
  exists st, tr1, (text_backfill params (texts st)).
  split; [done |]. split.
  - destruct (Z.lt_ge_cases (Z.of_nat (length (texts st))) (min_texts params))
      as [Hlt | Hge].
    + destruct (default_texts params) as [|d ds] eqn:Hdef.
      * right. split; [by right |].
        rewrite text_backfill_skips; [done | by right].
      * left. split; [done |]. split; [done |].
        rewrite text_backfill_applies, Hdef; [done.. | by rewrite Hdef].
    + right. split; [by left |].
      rewrite text_backfill_skips; [done | by left].
  - unfold py_slice_to. split; intros Hmax.
    + by destruct (Z.leb_spec 0 (max_texts params)); [| lia].
    + by destruct (Z.leb_spec 0 (max_texts params)); [lia |].
Qed.

Lemma text_backfill_appends_defaults_witness :
  collect_params stub_world three_words_event four_texts_cut_to_two []
    = (Ok ([], ["a"; "b"], ∅), [])
  /\ exists st tr1 full,
       segment_pass stub_world three_words_event empty_collected []
         = (Ok st, tr1)
       /\ ((Z.of_nat (length (texts st)) < min_texts four_texts_cut_to_two
            /\ default_texts four_texts_cut_to_two <> []
            /\ full = texts st ++ default_texts four_texts_cut_to_two)
           \/ ((min_texts four_texts_cut_to_two <= Z.of_nat (length (texts st))
                \/ default_texts four_texts_cut_to_two = [])
               /\ full = texts st))
       /\ (0 <= max_texts four_texts_cut_to_two ->
           ["a"; "b"] = take (Z.to_nat (max_texts four_texts_cut_to_two)) full)
       /\ (max_texts four_texts_cut_to_two < 0 ->
           ["a"; "b"]
           = take (length full - Z.to_nat (- max_texts four_texts_cut_to_two))
               full).
Proof.
  split; [vm_compute; reflexivity |].
  apply (text_backfill_appends_defaults stub_world three_words_event
           four_texts_cut_to_two [] [] [] ["a"; "b"] ∅).
  vm_compute. reflexivity.
Defined.

(** The run of the witness: three words are extracted, the two defaults
    are put after them, and the cut to two leaves the first two words. *)
Example text_backfill_then_cut :
  segment_pass stub_world three_words_event empty_collected []
    = (Ok {| images := []; texts := ["a"; "b"; "c"]; options := ∅ |}, [])
  /\ text_backfill four_texts_cut_to_two ["a"; "b"; "c"]
     = ["a"; "b"; "c"; "x"; "y"]
  /\ collect_params stub_world three_words_event four_texts_cut_to_two []
     = (Ok ([], ["a"; "b"], ∅), []).
Proof. repeat split; vm_compute; reflexivity. Qed.

(** ** Downloads and avatars *)

(** [_download_image] itself never raises. *)
Lemma download_image_no_raise (w : world) (url : string) (http : bool)
    (tr : trace) :
  exists data tr', _download_image w url http tr = (Ok data, tr').
Proof. unfold _download_image, ask. eauto. Qed.

(** C3 (the code departs from the claim). For a user id that is not
    made of digits, [get_avatar] evaluates [random.randint] on the
    function imported by [from random import random] and raises
    [AttributeError]; no download is attempted. *)
Theorem get_avatar_non_numeric_raises
    (w : world) (user_id : string) (tr : trace) :
  py_isdigit user_id = false ->
  get_avatar w user_id tr = (Raise AttributeError, tr).
Proof.
  intros Hd. unfold get_avatar. by rewrite Hd.
Qed.

Lemma get_avatar_non_numeric_raises_witness :
  py_isdigit "webchat_alice" = false
  /\ get_avatar stub_world "webchat_alice" [] = (Raise AttributeError, []).
Proof.
  split; [reflexivity |].
  apply (get_avatar_non_numeric_raises stub_world "webchat_alice" []).
  reflexivity.
Defined.

(** [_decode_image] lets an exception of the base64 decoder through. *)
Lemma decode_image_base64_raises
    (w : world) (src : string) (e : exn) (tr : trace) :
  path_is_file w tr src = Ok false ->
  py_startswith "http" src = false ->
  py_startswith "base64://" src = true ->
  b64decode w (py_drop 9 src) = Raise e ->
  _decode_image w src tr = (Raise e, tr ++ [IsFile src]).
Proof.
  intros Hfile Hhttp Hb64 Hdec. unfold _decode_image.
  unfold bind at 1, ask. rewrite Hfile, Hhttp, Hb64.
  unfold bind, lift. by rewrite Hdec.
Qed.

Example decode_image_bad_base64 :
  _decode_image stub_world "base64://a" []
  = (Raise (ExternalError "binascii.Error"), [IsFile "base64://a"]).
Proof. reflexivity. Qed.

(** ** Image backfill *)

(** C8 (the code departs from the claim). With no image from the
    segments, a positive [min_images] and a sender id that is not made
    of digits, fetching the sender's avatar raises [AttributeError] and
    [collect_params] raises it: the failed fetch is not silent. *)
Theorem backfill_non_numeric_sender_raises
    (w : world) (ev : event) (params : meme_params) (tr : trace) :
  get_messages ev = [] ->
  0 < min_images params ->
  py_isdigit (get_sender_id ev) = false ->
  collect_params w ev params tr = (Raise AttributeError, tr).
Proof.
  intros Hchain Hmin Hd.
  unfold collect_params, segment_pass. rewrite Hchain. simpl.
  erewrite bind_eq_ok by reflexivity.
  unfold image_backfill. simpl images.
  rewrite (proj2 (len_lt_spec _ _)) by (simpl; lia).
  do 3 apply bind_eq_raise.
  by apply get_avatar_non_numeric_raises.
Qed.

Lemma backfill_non_numeric_sender_raises_witness :
  (get_messages opaque_sender_event = []
   /\ 0 < min_images one_image_one_text
   /\ py_isdigit (get_sender_id opaque_sender_event) = false)
  /\ collect_params stub_world opaque_sender_event one_image_one_text []
     = (Raise AttributeError, []).
Proof.
  split.
  { repeat split. }
  apply (backfill_non_numeric_sender_raises stub_world opaque_sender_event
           one_image_one_text []).
  - reflexivity.
  - simpl. lia.
  - reflexivity.
Defined.

(** ** Which mentions are passed over *)

Lemma bind_ext {A B} (m : IO A) (k k' : A -> IO B) (tr : trace) :
  (forall a tr1, k a tr1 = k' a tr1) -> bind m k tr = bind m k' tr.
Proof.
  intros Hk. unfold bind. destruct (m tr) as [[a|e] tr1]; [apply Hk | done].
Qed.

Lemma equals_first_true (chain : list segment) (seg : segment) :
  equals_first chain seg = true <->
  exists qq mname, seg = At qq mname /\ chain !! 0%nat = Some (At qq mname).
Proof.
  unfold equals_first. destruct chain as [|first chain]; simpl.
  - split; [discriminate | intros (qq & mname & _ & H); discriminate].
  - split.
    + intros [Hat Heq]%andb_true_iff. destruct seg; try discriminate.
      apply seg_eqb_At in Heq. subst. eauto.
    + intros (qq & mname & -> & H). inversion H; subst.
      cbn [is_At andb]. by apply seg_eqb_At.
Qed.

(** A loop of [_process_segment] over [segs] does what the loop over
    [segs] without the mentions equal to [chain[0]] does. *)
Lemma for_each_without_first_mention
    (w : world) (ev : event) (chain segs : list segment) (name : string)
    (st : collected) (tr : trace) :
  for_each (fun seg => _process_segment w ev chain seg name) segs st tr
  = for_each (fun seg => _process_segment w ev chain seg name)
      (without_first_mention chain segs) st tr.
Proof.
  revert st tr. induction segs as [|seg segs IH]; intros st tr; [done |].
  unfold without_first_mention. simpl.
  destruct (equals_first chain seg) eqn:Heq; simpl.
  - apply equals_first_true in Heq as (qq & mname & -> & Hhd).
    erewrite bind_eq_ok by (by apply process_segment_first_mention).
    apply IH.
  - apply bind_ext. intros st1 tr1. apply IH.
Qed.

(** The segment pass as two loops: over the sub-chain of the first
    reply, then over the chain. *)
Lemma segment_pass_loops (w : world) (ev : event) (st : collected) (tr : trace) :
  segment_pass w ev st tr
  = (st1 <- for_each
              (fun seg => _process_segment w ev (get_messages ev) seg
                            (reply_label_of (get_messages ev)))
              (reply_chain_of (get_messages ev)) st ;;
     for_each
       (fun seg => _process_segment w ev (get_messages ev) seg
                     (get_sender_name ev))
       (get_messages ev) st1) tr.
Proof.
  unfold segment_pass, reply_chain_of, reply_label_of.
  destruct (List.find is_Reply (get_messages ev)) as [[| | |[|r rs] n i|]|];
    reflexivity.
Qed.

(** C10. Whether a mention is passed over is decided by comparing it
    with the first segment of the current chain, not by its position:
    (1) a mention equal to [chain[0]] is passed over, whatever loop
    processes it; (2) a mention different from [chain[0]] is resolved;
    (3) the whole segment pass equals the pass over the replied
    sub-chain and the chain with every mention equal to [chain[0]]
    removed, wherever it stood. *)
Theorem mention_skip_is_by_equality (w : world) (ev : event) :
  (forall chain qq mname name st tr,
     chain !! 0%nat = Some (At qq mname) ->
     _process_segment w ev chain (At qq mname) name st tr = (Ok st, tr))
  /\ (forall chain first qq mname name st tr,
        chain !! 0%nat = Some first ->
        first <> At qq mname ->
        _process_segment w ev chain (At qq mname) name st tr
        = _append_id_info w ev qq st tr)
  /\ (forall st tr,
        segment_pass w ev st tr
        = (st1 <- for_each
                    (fun seg => _process_segment w ev (get_messages ev) seg
                                  (reply_label_of (get_messages ev)))
                    (without_first_mention (get_messages ev)
                       (reply_chain_of (get_messages ev))) st ;;
           for_each
             (fun seg => _process_segment w ev (get_messages ev) seg
                           (get_sender_name ev))
             (without_first_mention (get_messages ev) (get_messages ev))
             st1) tr).
Proof.
  split; [| split].
  - intros. by apply process_segment_first_mention.
  - intros. by eapply process_segment_other_mention.
  - intros st tr. rewrite segment_pass_loops. unfold bind.
    rewrite <- for_each_without_first_mention.
    destruct (for_each _ (reply_chain_of _) st tr) as [[st1|e] tr1]; [| done].
    apply for_each_without_first_mention.
Qed.

(** The mention of user 42 opens the chain: its copies inside the
    replied message and at the end of the chain are passed over (a
    lookup of user 42 would raise here), while the mention of user
    12345678, first in the replied message, is resolved. *)
Example reply_event_run :
  without_first_mention (get_messages reply_event)
    (reply_chain_of (get_messages reply_event)) = [At "12345678" None]
  /\ collect_params stub_world reply_event one_image_one_text []
     = (Ok ([("Bob", png_bytes)], [],
            <["gender" := VStr "male"]> (<["name" := VStr "Bob"]> ∅)),
        [StrangerInfo 12345678; HttpGet (avatar_url "12345678")]).
Proof. split; vm_compute; reflexivity. Qed.

(** ** Truthiness and the cut to the maximum *)

Lemma truthy_bytes_some (o : option bytes) (data : bytes) :
  truthy_bytes o = Some data -> o = Some data /\ data <> [].
Proof.
  destruct o as [[|b r]|]; simpl; intros H; inversion H; by subst.
Qed.

(** Cutting to [max_images] keeps a front part: an image taken from the
    segments is kept only if every avatar put in front is kept. *)
Lemma py_slice_to_front {A} (front back : list A) (n : Z) :
  (exists back', py_slice_to (front ++ back) n = front ++ back')
  \/ (exists k, py_slice_to (front ++ back) n = take k front).
Proof.
  destruct (py_slice_to_prefix (front ++ back) n) as [k ->].
  destruct (Nat.le_gt_cases k (length front)) as [Hle | Hgt].
  - right. exists k. by rewrite take_app_le.
  - left. exists (take (k - length front) back).
    rewrite take_app_ge by lia. done.
Qed.

(** ** The catalog *)

Lemma py_in_spec (x : string) (l : list string) : py_in x l = true <-> x ∈ l.
Proof.
  unfold py_in. induction l as [|y l IH]; simpl.
  - split; [discriminate | intros H; by apply elem_of_nil in H].
  - rewrite orb_true_iff, IH, String.eqb_eq, elem_of_cons. done.
Qed.

Lemma py_in_false (x : string) (l : list string) : py_in x l = false <-> x ∉ l.
Proof. rewrite <- py_in_spec. by destruct (py_in x l). Qed.

Lemma answers_to_spec (m : meme) (keyword : string) :
  String.eqb keyword (key m) || py_in keyword (keywords m) = true
  <-> answers_to m keyword.
Proof.
  unfold answers_to. by rewrite orb_true_iff, String.eqb_eq, py_in_spec.
Qed.

Lemma find_as_py_next {A} (f : A -> bool) (l : list A) :
  py_next (fun x => Ok (f x)) l = Ok (List.find f l).
Proof.
  induction l as [|x l IH]; simpl; [done |]. by destruct (f x).
Qed.

Lemma meme_keywords_of_spec (memes : list meme) (k : string) :
  k ∈ meme_keywords_of memes <-> exists m, m ∈ memes /\ k ∈ keywords m.
Proof.
  unfold meme_keywords_of. rewrite list_elem_of_In, in_flat_map.
  split; intros (m & Hm & Hk); exists m; split;
    by apply list_elem_of_In.
Qed.

(** X1. [find_meme] returns the first meme of the catalog whose key or
    keywords contain the keyword, and [None] exactly when no meme has
    it. *)
Theorem find_meme_first (memes : list meme) (keyword : string) :
  (forall m,
     find_meme memes keyword = Some m <->
     exists i, memes !! i = Some m /\ answers_to m keyword
               /\ forall j m', (j < i)%nat -> memes !! j = Some m' ->
                               ~ answers_to m' keyword)
  /\ (find_meme memes keyword = None <->
      forall m, m ∈ memes -> ~ answers_to m keyword).
Proof.
  unfold find_meme.
  set (f := fun m => String.eqb keyword (key m) || py_in keyword (keywords m)).
  assert (Hf : forall m, f m = true <-> answers_to m keyword)
    by (intros m; apply answers_to_spec).
  assert (Hnf : forall m, f m = false <-> ~ answers_to m keyword).
  { intros m. rewrite <- Hf. by destruct (f m). }
  split.
  - intros m.
    assert (Hnext := py_next_pure_some f memes m).
    rewrite find_as_py_next in Hnext.
    split.
    + intros Hfind. rewrite Hfind in Hnext.
      destruct (proj1 Hnext eq_refl) as (i & Hi & Hm & Hmin).
      exists i. repeat split; [done | by apply Hf |].
      intros j m' Hj Hm'. apply Hnf. by apply (Hmin j).
    + intros (i & Hi & Hm & Hmin).
      assert (Hok : Ok (List.find f memes) = Ok (Some m)).
      { apply Hnext. exists i. repeat split; [done | by apply Hf |].
        intros j m' Hj Hm'. apply Hnf. by apply (Hmin j). }
      by inversion Hok.
  - assert (Hnext := py_next_pure_none f memes).
    rewrite find_as_py_next in Hnext. split.
    + intros Hfind m Hm. apply Hnf. apply Hnext; [by rewrite Hfind | done].
    + intros Hall.
      assert (Hok : Ok (List.find f memes) = Ok None).
      { apply Hnext. intros m Hm. apply Hnf. by apply Hall. }
      by inversion Hok.
Qed.

(** A key that is not a keyword is found by [find_meme] but is not a
    keyword for [is_meme_keyword]. *)
Example find_meme_by_key :
  find_meme sample_memes "petpet" = Some petpet
  /\ is_meme_keyword sample_memes "petpet" = false.
Proof. split; reflexivity. Qed.

Lemma find_meme_keyword (memes : list meme) (keyword : string) :
  keyword ∈ meme_keywords_of memes ->
  exists m, find_meme memes keyword = Some m
            /\ m ∈ memes /\ answers_to m keyword.
Proof.
  intros (m0 & Hm0 & Hk)%meme_keywords_of_spec. unfold find_meme.
  destruct (List.find _ memes) as [m|] eqn:Hfind.
  - apply find_some in Hfind as [Hin Hm]. exists m.
    split; [done |]. split; [by apply list_elem_of_In |].
    by apply answers_to_spec.
  - apply find_none with (x := m0) in Hfind; [| by apply list_elem_of_In].
    apply orb_false_iff in Hfind as [_ Hnot].
    apply py_in_false in Hnot. done.
Qed.

(** X2. A keyword returned by the matcher over the catalog's keywords,
    in either mode, is resolved by [find_meme] to a meme of the catalog
    that has it as key or keyword. *)
Theorem matched_keyword_resolves
    (memes : list meme) (text keyword : string) (fuzzy : bool) :
  match_meme_keyword (meme_keywords_of memes) text fuzzy = Ok (Some keyword) ->
  exists m, find_meme memes keyword = Some m
            /\ m ∈ memes /\ answers_to m keyword.
Proof.
  intros Hmatch. apply find_meme_keyword.
  by eapply match_result_known.
Qed.

Lemma matched_keyword_resolves_witness :
  match_meme_keyword (meme_keywords_of sample_memes) "rub @12345678" false
    = Ok (Some "rub")
  /\ exists m, find_meme sample_memes "rub" = Some m
               /\ m ∈ sample_memes /\ answers_to m "rub".
Proof.
  split; [reflexivity |].
  apply (matched_keyword_resolves sample_memes "rub @12345678" "rub" false).
  reflexivity.
Defined.

(** X3. What [generate_meme] returns: [None] only when the keyword
    names no meme, and then nothing is collected or requested; an image
    only as the renderer's answer for the meme found, called with what
    [collect_params] returned for that meme's constraints, so with no
    more images and texts than its non-negative maxima allow. *)
Theorem generate_meme_render_call
    (w : world) (rd : renderer) (memes : list meme) (ev : event)
    (keyword : string) (tr tr' : trace) (r : option bytes) :
  generate_meme w rd memes ev keyword tr = (Ok r, tr') ->
  match r with
  | None => find_meme memes keyword = None /\ tr' = tr
  | Some image =>
      exists m imgs txts opts,
        find_meme memes keyword = Some m
        /\ collect_params w ev (params m) tr = (Ok (imgs, txts, opts), tr')
        /\ (0 <= max_images (params m) ->
            Z.of_nat (length imgs) <= max_images (params m))
        /\ (0 <= max_texts (params m) ->
            Z.of_nat (length txts) <= max_texts (params m))
        /\ (if is_py_version rd
            then render_py rd m (map snd imgs) txts opts
            else render_rs rd m imgs txts opts) = Ok image
  end.
Proof.
  unfold generate_meme. intros Hrun.
  destruct (find_meme memes keyword) as [m|] eqn:Hfind.
  - apply bind_ok in Hrun as ([[imgs txts] opts] & tr1 & Hcollect & Hrun).
    assert (Himgs : 0 <= max_images (params m) ->
                    Z.of_nat (length imgs) <= max_images (params m)).
    { intros HN. unfold collect_params in Hcollect.
      apply bind_ok in Hcollect as (st & tr2 & _ & Hc).
      apply bind_ok in Hc as (filled & tr3 & _ & Hc).
      inversion Hc; subst. by apply py_slice_to_length. }
    assert (Htxts : 0 <= max_texts (params m) ->
                    Z.of_nat (length txts) <= max_texts (params m)).
    { intros HM. unfold collect_params in Hcollect.
      apply bind_ok in Hcollect as (st & tr2 & _ & Hc).
      apply bind_ok in Hc as (filled & tr3 & _ & Hc).
      inversion Hc; subst. by apply py_slice_to_length. }
    destruct (is_py_version rd) eqn:Hpy.
    + apply bind_ok in Hrun as (image & tr2 & Hrender & Hret).
      unfold lift in Hrender. inversion Hrender; subst.
      inversion Hret; subst. by exists m, imgs, txts, opts.
    + apply bind_ok in Hrun as (image & tr2 & Hrender & Hret).
      unfold lift in Hrender. inversion Hrender; subst.
      inversion Hret; subst. by exists m, imgs, txts, opts.
  - inversion Hrun; subst. done.
Qed.

Lemma generate_meme_render_call_witness :
  generate_meme stub_world echo_renderer sample_memes punch_event "punch" []
    = (Ok (Some png_bytes),
       [StrangerInfo 12345678; HttpGet (avatar_url "12345678")])
  /\ exists m imgs txts opts,
       find_meme sample_memes "punch" = Some m
       /\ collect_params stub_world punch_event (params m) []
          = (Ok (imgs, txts, opts),
             [StrangerInfo 12345678; HttpGet (avatar_url "12345678")])
       /\ (0 <= max_images (params m) ->
           Z.of_nat (length imgs) <= max_images (params m))
       /\ (0 <= max_texts (params m) ->
           Z.of_nat (length txts) <= max_texts (params m))
       /\ (if is_py_version echo_renderer
           then render_py echo_renderer m (map snd imgs) txts opts
           else render_rs echo_renderer m imgs txts opts) = Ok png_bytes.
Proof.
  split; [vm_compute; reflexivity |].
  apply (generate_meme_render_call stub_world echo_renderer sample_memes
           punch_event "punch" []
           [StrangerInfo 12345678; HttpGet (avatar_url "12345678")]
           (Some png_bytes)).
  vm_compute. reflexivity.
Defined.

(** ** The commands that disable and enable a meme *)

Lemma py_list_remove_first (x : string) (l : list string) :
  x ∈ l ->
  exists l1 l2, l = l1 ++ (x :: l2) /\ (x ∉ l1)
                /\ py_list_remove x l = Ok (l1 ++ l2).
Proof.
  induction l as [|y l IH]; intros Hin; [by apply elem_of_nil in Hin |].
  simpl. destruct (String.eqb_spec y x) as [->|Hne].
  - exists [], l. split; [done |]. split; [apply not_elem_of_nil | done].
  - apply elem_of_cons in Hin as [->|Hin]; [done |].
    destruct (IH Hin) as (l1 & l2 & -> & Hl1 & ->).
    exists (y :: l1), l2. split; [done |]. split; [| done].
    intros [->|H]%elem_of_cons; done.
Qed.

Lemma py_list_remove_last (x : string) (l : list string) :
  x ∉ l -> py_list_remove x (l ++ [x]) = Ok l.
Proof.
  induction l as [|y l IH]; intros Hnin; simpl.
  - by rewrite String.eqb_refl.
  - apply not_elem_of_cons in Hnin as [Hne Hnin].
    destruct (String.eqb_spec y x) as [->|_]; [done |].
    by rewrite IH.
Qed.

Lemma truthy_str_some (o : option string) (s : string) :
  truthy_str o = Some s -> o = Some s /\ s <> "".
Proof.
  destruct o as [[|c r]|]; simpl; intros H; inversion H; by subst.
Qed.

(** X4. Neither command raises, and both keep the configuration in
    order: the disabled list stays free of duplicates, holds catalog
    keywords only, and is the list last written by [save_config]. *)
Theorem commands_keep_conf_ok
    (memes : list meme) (conf : plugin_conf) (meme_name : option string) :
  conf_ok memes conf ->
  (exists conf' r, add_supervisor memes conf meme_name = Ok (conf', r)
                   /\ conf_ok memes conf')
  /\ (exists conf' r, remove_supervisor memes conf meme_name = Ok (conf', r)
                      /\ conf_ok memes conf').
Proof.
  intros (Hnd & Hsub & Hsaved). split.
  - unfold add_supervisor.
    destruct (truthy_str meme_name) as [name|]; [| by eexists _, _].
    destruct (is_meme_keyword memes name) eqn:Hkw; simpl;
      [| by eexists _, _].
    destruct (py_in name (memes_disabled_list conf)) eqn:Hin;
      [by eexists _, _ |].
    eexists _, _. split; [reflexivity |].
    apply py_in_false in Hin. apply py_in_spec in Hkw.
    unfold conf_ok. simpl. split; [| split; [| done]].
    + apply NoDup_app. split; [done |]. split; [| apply NoDup_singleton].
      intros k Hk ->%list_elem_of_singleton. done.
    + intros k [Hk | ->%list_elem_of_singleton]%elem_of_app; auto.
  - unfold remove_supervisor.
    destruct (truthy_str meme_name) as [name|]; [| by eexists _, _].
    destruct (is_meme_keyword memes name) eqn:Hkw; simpl;
      [| by eexists _, _].
    destruct (py_in name (memes_disabled_list conf)) eqn:Hin; simpl;
      [| by eexists _, _].
    apply py_in_spec in Hin.
    destruct (py_list_remove_first _ _ Hin) as (l1 & l2 & Hl & Hl1 & Hrm).
    rewrite Hrm. eexists _, _. split; [reflexivity |].
    unfold conf_ok. simpl. rewrite Hl in Hnd, Hsub.
    apply NoDup_app in Hnd as (Hnd1 & Hdisj & Hnd2).
    apply NoDup_cons in Hnd2 as [Hx Hnd2].
    split; [| split; [| done]].
    + apply NoDup_app. split; [done |]. split; [| done].
      intros k Hk1 Hk2. apply (Hdisj k Hk1). by apply list_elem_of_further.
    + intros k Hk. apply Hsub. apply elem_of_app.
      apply elem_of_app in Hk as [Hk | Hk]; [by left | right].
      by apply list_elem_of_further.
Qed.

Lemma commands_keep_conf_ok_witness :
  conf_ok sample_memes sample_conf
  /\ (exists conf' r,
        add_supervisor sample_memes sample_conf (Some "pat") = Ok (conf', r)
        /\ conf_ok sample_memes conf')
  /\ (exists conf' r,
        remove_supervisor sample_memes sample_conf (Some "pat") = Ok (conf', r)
        /\ conf_ok sample_memes conf').
Proof.
  assert (Hok : conf_ok sample_memes sample_conf).
  { split; [apply NoDup_nil_2 |]. split; [| reflexivity].
    intros k Hk. by apply elem_of_nil in Hk. }
  split; [exact Hok |].
  apply (commands_keep_conf_ok sample_memes sample_conf (Some "pat") Hok).
Defined.

(** X5. Disabling a catalog keyword that is not disabled and then
    enabling it gives back the disabled list as it was; both commands
    answer with the "disabled meme" wording, and in between the keyword
    is in the list. *)
Theorem disable_then_enable
    (memes : list meme) (conf : plugin_conf) (name : string) :
  name <> "" ->
  is_meme_keyword memes name = true ->
  py_in name (memes_disabled_list conf) = false ->
  exists conf1 conf2,
    add_supervisor memes conf (Some name) = Ok (conf1, MsgDisabled name)
    /\ py_in name (memes_disabled_list conf1) = true
    /\ remove_supervisor memes conf1 (Some name) = Ok (conf2, MsgDisabled name)
    /\ memes_disabled_list conf2 = memes_disabled_list conf
    /\ saved_disabled_list conf2 = memes_disabled_list conf.
Proof.
  intros Hne Hkw Hin.
  unfold add_supervisor, remove_supervisor.
  assert (Htruthy : truthy_str (Some name) = Some name) by (by destruct name).
  rewrite Htruthy, Hkw, Hin. simpl. eexists _, _.
  split; [reflexivity |]. simpl.
  assert (Hin1 : py_in name (memes_disabled_list conf ++ [name]) = true).
  { apply py_in_spec, elem_of_app. right. apply list_elem_of_here. }
  rewrite Hin1. simpl. split; [done |].
  rewrite py_list_remove_last by (by apply py_in_false). done.
Qed.

Lemma disable_then_enable_witness :
  ("pat" <> ""
   /\ is_meme_keyword sample_memes "pat" = true
   /\ py_in "pat" (memes_disabled_list sample_conf) = false)
  /\ exists conf1 conf2,
       add_supervisor sample_memes sample_conf (Some "pat")
         = Ok (conf1, MsgDisabled "pat")
       /\ py_in "pat" (memes_disabled_list conf1) = true
       /\ remove_supervisor sample_memes conf1 (Some "pat")
          = Ok (conf2, MsgDisabled "pat")
       /\ memes_disabled_list conf2 = memes_disabled_list sample_conf
       /\ saved_disabled_list conf2 = memes_disabled_list sample_conf.
Proof.
  split; [repeat split; discriminate |].
  apply (disable_then_enable sample_memes sample_conf "pat").
  - discriminate.
  - reflexivity.
  - reflexivity.
Defined.

(** X6. When the enable command succeeds on a list without duplicates,
    the keyword is no longer disabled and every other entry is kept. *)
Theorem enable_removes_keyword
    (memes : list meme) (conf conf' : plugin_conf) (name : string)
    (meme_name : option string) :
  NoDup (memes_disabled_list conf) ->
  remove_supervisor memes conf meme_name = Ok (conf', MsgDisabled name) ->
  (name ∉ memes_disabled_list conf')
  /\ forall k, k <> name ->
               (k ∈ memes_disabled_list conf' <-> k ∈ memes_disabled_list conf).
Proof.
  intros Hnd Hrun. unfold remove_supervisor in Hrun.
  destruct (truthy_str meme_name) as [n|]; [| discriminate].
  destruct (is_meme_keyword memes n); simpl in Hrun; [| discriminate].
  destruct (py_in n (memes_disabled_list conf)) eqn:Hin; simpl in Hrun;
    [| discriminate].
  apply py_in_spec in Hin.
  destruct (py_list_remove_first _ _ Hin) as (l1 & l2 & Hl & Hl1 & Hrm).
  rewrite Hrm in Hrun. inversion Hrun; subst. simpl.
  rewrite Hl in Hnd |- *.
  apply NoDup_app in Hnd as (_ & Hdisj & Hnd2).
  apply NoDup_cons in Hnd2 as [Hx _].
  split.
  - intros [H | H]%elem_of_app; done.
  - intros k Hk. rewrite !elem_of_app, elem_of_cons. tauto.
Qed.

Lemma enable_removes_keyword_witness :
  NoDup ["rub"; "pat"]
  /\ remove_supervisor sample_memes (set_disabled sample_conf ["rub"; "pat"])
       (Some "rub")
     = Ok (save_config (set_disabled sample_conf ["pat"]), MsgDisabled "rub")
  /\ ("rub" ∉ memes_disabled_list (save_config (set_disabled sample_conf ["pat"])))
  /\ forall k, k <> "rub" ->
       (k ∈ memes_disabled_list (save_config (set_disabled sample_conf ["pat"]))
        <-> k ∈ memes_disabled_list (set_disabled sample_conf ["rub"; "pat"])).
Proof.
  assert (Hnd : NoDup ["rub"; "pat"]).
  { apply NoDup_cons. split; [| apply NoDup_singleton].
    intros H%list_elem_of_singleton. discriminate. }
  split; [exact Hnd |]. split; [reflexivity |].
  apply (enable_removes_keyword sample_memes
           (set_disabled sample_conf ["rub"; "pat"])
           (save_config (set_disabled sample_conf ["pat"]))
           "rub" (Some "rub")).
  - exact Hnd.
  - reflexivity.
Defined.

(** ** The message handler *)

Lemma split_ws_nil (acc s : string) :
  split_ws acc s = [] -> acc = "" /\ all_space s = true.
Proof.
  unfold all_space. revert acc. induction s as [|c s IH]; intros acc H; simpl in *.
  - destruct acc; [done | discriminate].
  - destruct (py_isspace c) eqn:Hc.
    + destruct acc; simpl in H; [| discriminate].
      split; [done |]. simpl. by apply (IH "").
    + apply IH in H as [Hacc _]. destruct acc; discriminate.
Qed.

(** The matcher raises only in exact mode, only [IndexError], and
    exactly when the catalog is not empty and the text is blank. *)
Lemma match_meme_keyword_raises
    (meme_keywords : list string) (text : string) (fuzzy : bool) (e : exn) :
  match_meme_keyword meme_keywords text fuzzy = Raise e <->
  e = IndexError /\ fuzzy = false /\ meme_keywords <> []
  /\ all_space text = true.
Proof.
  unfold match_meme_keyword. destruct fuzzy.
  - split; [intros H; by apply py_next_pure_ok in H | intros (_ & ? & _); done].
  - destruct (py_split text) as [|t rest] eqn:Hsplit; simpl.
    + apply split_ws_nil in Hsplit as [_ Hblank].
      destruct meme_keywords as [|k l]; simpl.
      * split; [discriminate | intros (_ & _ & ? & _); done].
      * split; [intros H; by inversion H | intros (-> & _); done].
    + split.
      * intros H. by apply py_next_pure_ok in H.
      * intros (_ & _ & _ & Hblank). apply py_split_blank in Hblank.
        unfold py_split in *. congruence.
Qed.

(** X7. A keyword the handler goes on to render is a non-empty keyword
    of the catalog that is not disabled; the message carried the extra
    prefix; and the bot was addressed when [need_prefix] is set. *)
Theorem handle_keyword_sound
    (memes : list meme) (conf : plugin_conf) (message_str : string)
    (wake : bool) (keyword : string) :
  handle_keyword memes conf message_str wake = Ok (Some keyword) ->
  keyword ∈ meme_keywords_of memes
  /\ keyword <> ""
  /\ (keyword ∉ memes_disabled_list conf)
  /\ py_startswith (extra_prefix conf) message_str = true
  /\ (need_prefix conf = true -> wake = true)
  /\ match_meme_keyword (meme_keywords_of memes)
       (py_removeprefix (extra_prefix conf) message_str) (fuzzy_match conf)
     = Ok (Some keyword).
Proof.
  unfold handle_keyword. intros H.
  destruct (need_prefix conf && negb wake) eqn:Hneed; [discriminate |].
  destruct (str_nonempty (extra_prefix conf)
            && negb (py_startswith (extra_prefix conf) message_str))
    eqn:Hpre; [discriminate |].
  destruct (negb (str_nonempty _)) eqn:Hparam; [discriminate |].
  destruct (match_meme_keyword _ _ _) as [[k|]|e] eqn:Hmatch;
    [| discriminate..].
  destruct (negb (str_nonempty k) || py_in k (memes_disabled_list conf))
    eqn:Hk; [discriminate |].
  inversion H; subst.
  apply orb_false_iff in Hk as [Hne Hdis].
  apply negb_false_iff, str_nonempty_true in Hne.
  apply py_in_false in Hdis.
  split; [by eapply match_result_known |].
  split; [done |]. split; [done |].
  split.
  - destruct (extra_prefix conf) as [|c p] eqn:Hp.
    + unfold py_startswith. by destruct message_str.
    + simpl in Hpre. by apply negb_false_iff in Hpre.
  - split; [| done]. intros Hn. rewrite Hn in Hneed. simpl in Hneed.
    by apply negb_false_iff in Hneed.
Qed.

Lemma handle_keyword_sound_witness :
  handle_keyword sample_memes sample_conf "/pat @12345678" false
    = Ok (Some "pat")
  /\ "pat" ∈ meme_keywords_of sample_memes
  /\ "pat" <> ""
  /\ ("pat" ∉ memes_disabled_list sample_conf)
  /\ py_startswith (extra_prefix sample_conf) "/pat @12345678" = true
  /\ (need_prefix sample_conf = true -> false = true)
  /\ match_meme_keyword (meme_keywords_of sample_memes)
       (py_removeprefix (extra_prefix sample_conf) "/pat @12345678")
       (fuzzy_match sample_conf)
     = Ok (Some "pat").
Proof.
  split; [reflexivity |].
  apply (handle_keyword_sound sample_memes sample_conf "/pat @12345678"
           false "pat").
  reflexivity.
Defined.

(** The handler goes on with [keyword] exactly when the two gates are
    open, something is left after the prefix, the matcher returns
    [keyword], and [keyword] is neither empty nor disabled. *)
Lemma handle_keyword_some_iff
    (memes : list meme) (conf : plugin_conf) (message_str : string)
    (wake : bool) (keyword : string) :
  handle_keyword memes conf message_str wake = Ok (Some keyword) <->
  need_prefix conf && negb wake = false
  /\ str_nonempty (extra_prefix conf)
     && negb (py_startswith (extra_prefix conf) message_str) = false
  /\ str_nonempty (py_removeprefix (extra_prefix conf) message_str) = true
  /\ match_meme_keyword (meme_keywords_of memes)
       (py_removeprefix (extra_prefix conf) message_str) (fuzzy_match conf)
     = Ok (Some keyword)
  /\ str_nonempty keyword = true
  /\ py_in keyword (memes_disabled_list conf) = false.
Proof.
  unfold handle_keyword. split.
  - intros H.
    destruct (need_prefix conf && negb wake); [discriminate |].
    destruct (str_nonempty (extra_prefix conf) && _); [discriminate |].
    destruct (str_nonempty (py_removeprefix _ _)); [| discriminate].
    simpl in H.
    destruct (match_meme_keyword _ _ _) as [[k|]|e]; [| discriminate..].
    destruct (str_nonempty k) eqn:Hk; simpl in H; [| discriminate].
    destruct (py_in k _) eqn:Hin; [discriminate |].
    inversion H; subst. done.
  - intros (-> & -> & -> & -> & -> & ->). done.
Qed.

Lemma add_supervisor_success
    (memes : list meme) (conf : plugin_conf) (name : string) :
  str_nonempty name = true ->
  is_meme_keyword memes name = true ->
  py_in name (memes_disabled_list conf) = false ->
  add_supervisor memes conf (Some name)
  = Ok (save_config (set_disabled conf (memes_disabled_list conf ++ [name])),
        MsgDisabled name).
Proof.
  intros Hne Hkw Hin. unfold add_supervisor.
  assert (Htruthy : truthy_str (Some name) = Some name) by (by destruct name).
  by rewrite Htruthy, Hkw, Hin.
Qed.

Lemma remove_supervisor_success
    (memes : list meme) (conf : plugin_conf) (name : string)
    (l : list string) :
  str_nonempty name = true ->
  is_meme_keyword memes name = true ->
  py_in name (memes_disabled_list conf) = true ->
  py_list_remove name (memes_disabled_list conf) = Ok l ->
  remove_supervisor memes conf (Some name)
  = Ok (save_config (set_disabled conf l), MsgDisabled name).
Proof.
  intros Hne Hkw Hin Hrm. unfold remove_supervisor.
  assert (Htruthy : truthy_str (Some name) = Some name) by (by destruct name).
  by rewrite Htruthy, Hkw, Hin, Hrm.
Qed.

(** X8. If a message is dispatched to a keyword, then disabling that
    keyword makes the same message dispatch nothing, and enabling it
    again makes the message dispatch to the keyword as before. *)
Theorem disable_blocks_then_enable_restores
    (memes : list meme) (conf : plugin_conf) (message_str : string)
    (wake : bool) (keyword : string) :
  handle_keyword memes conf message_str wake = Ok (Some keyword) ->
  exists conf1 conf2,
    add_supervisor memes conf (Some keyword) = Ok (conf1, MsgDisabled keyword)
    /\ handle_keyword memes conf1 message_str wake = Ok None
    /\ remove_supervisor memes conf1 (Some keyword)
       = Ok (conf2, MsgDisabled keyword)
    /\ handle_keyword memes conf2 message_str wake = Ok (Some keyword).
Proof.
  intros H.
  apply handle_keyword_some_iff in H as (Hneed & Hpre & Hparam & Hmatch & Hk & Hdis).
  assert (Hkw : is_meme_keyword memes keyword = true).
  { apply py_in_spec. by eapply match_result_known. }
  set (l := memes_disabled_list conf) in *.
  set (conf1 := save_config (set_disabled conf (l ++ [keyword]))).
  set (conf2 := save_config (set_disabled conf1 l)).
  assert (Hin1 : py_in keyword (l ++ [keyword]) = true).
  { apply py_in_spec, elem_of_app. right. apply list_elem_of_here. }
  exists conf1, conf2. split; [by apply add_supervisor_success |].
  split.
  { unfold handle_keyword. simpl. rewrite Hneed, Hpre, Hparam. simpl.
    rewrite Hmatch, Hk. simpl. by rewrite Hin1. }
  split.
  { apply remove_supervisor_success; [done.. |].
    simpl. apply py_list_remove_last. by apply py_in_false. }
  apply handle_keyword_some_iff. simpl. done.
Qed.

Lemma disable_blocks_then_enable_restores_witness :
  handle_keyword sample_memes sample_conf "/pat @12345678" false
    = Ok (Some "pat")
  /\ exists conf1 conf2,
       add_supervisor sample_memes sample_conf (Some "pat")
         = Ok (conf1, MsgDisabled "pat")
       /\ handle_keyword sample_memes conf1 "/pat @12345678" false = Ok None
       /\ remove_supervisor sample_memes conf1 (Some "pat")
          = Ok (conf2, MsgDisabled "pat")
       /\ handle_keyword sample_memes conf2 "/pat @12345678" false
          = Ok (Some "pat").
Proof.
  split; [reflexivity |].
  apply (disable_blocks_then_enable_restores sample_memes sample_conf
           "/pat @12345678" false "pat").
  reflexivity.
Defined.

(** X9. Disabling or enabling some other name never changes what a
    message is dispatched to: only the keyword the matcher returns is
    looked up in the disabled list, so the other keywords of the same
    meme stay usable. *)
Theorem other_keyword_unaffected
    (memes : list meme) (conf conf' : plugin_conf) (message_str : string)
    (wake : bool) (keyword : string) (meme_name : option string) (r : reply) :
  handle_keyword memes conf message_str wake = Ok (Some keyword) ->
  meme_name <> Some keyword ->
  add_supervisor memes conf meme_name = Ok (conf', r)
  \/ remove_supervisor memes conf meme_name = Ok (conf', r) ->
  handle_keyword memes conf' message_str wake = Ok (Some keyword).
Proof.
  intros H Hother Hcmd.
  apply handle_keyword_some_iff in H as (Hneed & Hpre & Hparam & Hmatch & Hk & Hdis).
  assert (Hsame : forall l, py_in keyword l = false ->
            handle_keyword memes (save_config (set_disabled conf l))
              message_str wake = Ok (Some keyword)).
  { intros l Hl. apply handle_keyword_some_iff. simpl. done. }
  assert (Hconf : handle_keyword memes conf message_str wake
                  = Ok (Some keyword)).
  { apply handle_keyword_some_iff. done. }
  destruct Hcmd as [Hadd | Hrm].
  - unfold add_supervisor in Hadd.
    destruct (truthy_str meme_name) as [name|] eqn:Hname;
      [| by inversion Hadd; subst].
    apply truthy_str_some in Hname as [-> _].
    destruct (is_meme_keyword memes name); simpl in Hadd;
      [| by inversion Hadd; subst].
    destruct (py_in name (memes_disabled_list conf));
      [by inversion Hadd; subst |].
    inversion Hadd; subst. apply Hsame.
    apply py_in_false. apply py_in_false in Hdis.
    intros [Hin | Heq%list_elem_of_singleton]%elem_of_app; [done |].
    congruence.
  - unfold remove_supervisor in Hrm.
    destruct (truthy_str meme_name) as [name|] eqn:Hname;
      [| by inversion Hrm; subst].
    destruct (is_meme_keyword memes name); simpl in Hrm;
      [| by inversion Hrm; subst].
    destruct (py_in name (memes_disabled_list conf)) eqn:Hin; simpl in Hrm;
      [| by inversion Hrm; subst].
    apply py_in_spec in Hin.
    destruct (py_list_remove_first _ _ Hin) as (l1 & l2 & Hl & _ & Hremove).
    rewrite Hremove in Hrm. inversion Hrm; subst. apply Hsame.
    apply py_in_false. apply py_in_false in Hdis. rewrite Hl in Hdis.
    intros Hk'. apply Hdis. apply elem_of_app.
    apply elem_of_app in Hk' as [Hk' | Hk']; [by left | right].
    by apply list_elem_of_further.
Qed.

Lemma other_keyword_unaffected_witness :
  (handle_keyword sample_memes sample_conf "/pat @12345678" false
     = Ok (Some "pat")
   /\ Some "rub" <> Some "pat"
   /\ add_supervisor sample_memes sample_conf (Some "rub")
      = Ok (save_config (set_disabled sample_conf ["rub"]), MsgDisabled "rub"))
  /\ handle_keyword sample_memes (save_config (set_disabled sample_conf ["rub"]))
       "/pat @12345678" false
     = Ok (Some "pat").
Proof.
  split; [repeat split; discriminate |].
  apply (other_keyword_unaffected sample_memes sample_conf
           (save_config (set_disabled sample_conf ["rub"]))
           "/pat @12345678" false "pat" (Some "rub") (MsgDisabled "rub")).
  - reflexivity.
  - discriminate.
  - left. reflexivity.
Defined.

(** X10. The keyword lookup of the handler raises exactly in this case:
    both gates are open, exact matching is configured, the catalog is
    not empty, and what is left of the message after the prefix is not
    empty but blank; the exception is then the matcher's [IndexError]. *)
Theorem handle_keyword_raises
    (memes : list meme) (conf : plugin_conf) (message_str : string)
    (wake : bool) (e : exn) :
  handle_keyword memes conf message_str wake = Raise e <->
  e = IndexError
  /\ need_prefix conf && negb wake = false
  /\ str_nonempty (extra_prefix conf)
     && negb (py_startswith (extra_prefix conf) message_str) = false
  /\ str_nonempty (py_removeprefix (extra_prefix conf) message_str) = true
  /\ all_space (py_removeprefix (extra_prefix conf) message_str) = true
  /\ fuzzy_match conf = false
  /\ meme_keywords_of memes <> [].
Proof.
  unfold handle_keyword.
  destruct (need_prefix conf && negb wake);
    [split; [discriminate | intros (_ & ? & _); discriminate] |].
  destruct (str_nonempty (extra_prefix conf) && _);
    [split; [discriminate | intros (_ & _ & ? & _); discriminate] |].
  destruct (str_nonempty (py_removeprefix _ _)); simpl;
    [| split; [discriminate | intros (_ & _ & _ & ? & _); discriminate]].
  destruct (match_meme_keyword _ _ _) as [[k|]|e'] eqn:Hmatch.
  - split; [by destruct (_ || _) |].
    intros (-> & _ & _ & _ & Hblank & Hfuzzy & Hcat).
    assert (Hr : match_meme_keyword (meme_keywords_of memes)
                   (py_removeprefix (extra_prefix conf) message_str)
                   (fuzzy_match conf) = Raise IndexError)
      by (by apply match_meme_keyword_raises).
    congruence.
  - split; [discriminate |].
    intros (-> & _ & _ & _ & Hblank & Hfuzzy & Hcat).
    assert (Hr : match_meme_keyword (meme_keywords_of memes)
                   (py_removeprefix (extra_prefix conf) message_str)
                   (fuzzy_match conf) = Raise IndexError)
      by (by apply match_meme_keyword_raises).
    congruence.
  - apply match_meme_keyword_raises in Hmatch as (-> & Hfuzzy & Hcat & Hblank).
    split; [intros H; by inversion H | intros (-> & _); done].
Qed.

(** A message that is the prefix followed by a space. *)
Example handle_keyword_prefix_and_space :
  handle_keyword sample_memes sample_conf "/ " false = Raise IndexError.
Proof. reflexivity. Qed.


(** The avatar fetch that raises for a sender with an opaque id is
    swallowed by the handler: the user gets no reply. *)
Example meme_handle_swallows :
  meme_handle stub_world echo_renderer (fun _ => Ok None) sample_memes
    sample_conf opaque_sender_event "/pat" false []
  = (Ok NoReply, []).
Proof. vm_compute. reflexivity. Qed.

(** ** Tokens of a plain-text segment *)

Lemma split_first_spec (sep : ascii) (s : string) :
  py_contains_char sep s = true ->
  s = fst (split_first sep s) +:+ String sep (snd (split_first sep s))
  /\ py_contains_char sep (fst (split_first sep s)) = false.
Proof.
  induction s as [|c s IH]; simpl; [discriminate |].
  destruct (Ascii.eqb c sep) eqn:Hc; simpl.
  - apply Ascii.eqb_eq in Hc as ->. done.
  - intros Hin. destruct (IH Hin) as [Hs Hk].
    destruct (split_first sep s) as [k v]. simpl in *.
    rewrite Hc. simpl. split; [by rewrite <- Hs | done].
Qed.

(** X12. A token that contains "=" is an option: the text before the
    first "=" is the key, the rest is the value, stored as a string;
    images and texts are untouched and nothing is requested. *)
Theorem option_token_sets_option
    (w : world) (ev : event) (text : string) (st : collected) (tr : trace) :
  py_contains_char "=" text = true ->
  exists k v,
    text = k +:+ "=" +:+ v
    /\ py_contains_char "=" k = false
    /\ process_token w ev text st tr
       = (Ok {| images := images st; texts := texts st;
                options := <[k := VStr v]> (options st) |}, tr).
Proof.
  intros Heq. destruct (split_first_spec "=" text Heq) as [Htext Hk].
  unfold process_token. rewrite Heq.
  destruct (split_first "=" text) as [k v]. simpl in *.
  by exists k, v.
Qed.

Lemma option_token_sets_option_witness :
  py_contains_char "=" "size=3=4" = true
  /\ exists k v,
       "size=3=4" = k +:+ "=" +:+ v
       /\ py_contains_char "=" k = false
       /\ process_token stub_world punch_event "size=3=4" empty_collected []
          = (Ok {| images := []; texts := [];
                   options := <[k := VStr v]> ∅ |}, []).
Proof.
  split; [reflexivity |].
  apply (option_token_sets_option stub_world punch_event "size=3=4"
           empty_collected []).
  reflexivity.
Defined.

Example option_token_value :
  process_token stub_world punch_event "size=3=4" empty_collected []
  = (Ok {| images := []; texts := [];
           options := <["size" := VStr "3=4"]> ∅ |}, []).
Proof. reflexivity. Qed.

(** ** What the segment pass keeps *)

(** A loop keeps whatever every round keeps. *)
Lemma for_each_preserves {A S} (R : S -> S -> Prop) (P : A -> Prop)
    (body : A -> S -> IO S) (l : list A) :
  (forall st, R st st) ->
  (forall a b c, R a b -> R b c -> R a c) ->
  (forall x st tr st' tr', P x -> body x st tr = (Ok st', tr') -> R st st') ->
  Forall P l ->
  forall st tr st' tr',
    for_each body l st tr = (Ok st', tr') -> R st st'.
Proof.
  intros Hrefl Htrans Hbody HP. induction HP as [|x l Hx HP IH];
    intros st tr st' tr' Hrun; simpl in Hrun.
  - inversion Hrun; subst. apply Hrefl.
  - apply bind_ok in Hrun as (st1 & tr1 & Hstep & Hrest).
    eapply Htrans; [by eapply Hbody | by eapply IH].
Qed.

Lemma grows_refl (st : collected) : grows st st.
Proof.
  split; [done |]. exists []. by rewrite app_nil_r.
Qed.

Lemma grows_trans (a b c : collected) : grows a b -> grows b c -> grows a c.
Proof.
  intros [Hi1 (t1 & Ht1 & Hp1)] [Hi2 (t2 & Ht2 & Hp2)]. split.
  - by etrans.
  - exists (t1 ++ t2). rewrite Ht2, Ht1, <- app_assoc.
    split; [done | by apply Forall_app].
Qed.

Lemma append_id_info_grows
    (w : world) (ev : event) (target_id : string)
    (st st' : collected) (tr tr' : trace) :
  _append_id_info w ev target_id st tr = (Ok st', tr') -> grows st st'.
Proof.
  unfold _append_id_info. intros Hrun.
  apply bind_ok in Hrun as ([[name gender]|] & tr1 & _ & Hrun).
  - apply bind_ok in Hrun as (avatar & tr2 & _ & Hrun).
    destruct (truthy_bytes avatar); inversion Hrun; subst; simpl.
    + split; simpl; [by apply prefix_app_r |].
      exists []. by rewrite app_nil_r.
    + split; simpl; [done |]. exists []. by rewrite app_nil_r.
  - inversion Hrun; subst. apply grows_refl.
Qed.

Lemma process_token_grows
    (w : world) (ev : event) (text : string)
    (st st' : collected) (tr tr' : trace) :
  py_contains_char " " text = false ->
  process_token w ev text st tr = (Ok st', tr') -> grows st st'.
Proof.
  intros Hsp. unfold process_token.
  destruct (py_contains_char "=" text) eqn:Heq.
  - destruct (split_first "=" text) as [k v]. intros H; inversion H; subst.
    split; simpl; [done |]. exists []. by rewrite app_nil_r.
  - destruct (py_startswith "@" text) eqn:Hat.
    + destruct (py_isdigit (py_tail text)).
      * apply append_id_info_grows.
      * intros H; inversion H; subst. apply grows_refl.
    + destruct (str_nonempty text) eqn:Hne; intros H; inversion H; subst.
      * split; simpl; [done |]. exists [text]. split; [done |].
        apply Forall_singleton. unfold plain_word.
        by rewrite Hne, Hsp, Heq, Hat.
      * apply grows_refl.
Qed.

Lemma str_contains_char_app (c : ascii) (a b : string) :
  py_contains_char c (a +:+ b) = py_contains_char c a || py_contains_char c b.
Proof.
  induction a as [|x a IH]; simpl; [done |].
  by rewrite IH, orb_assoc.
Qed.

(** The pieces of [s.split(sep)] do not contain the separator. *)
Lemma split_on_pieces (sep : ascii) (acc s : string) :
  py_contains_char sep acc = false ->
  Forall (fun t => py_contains_char sep t = false) (split_on sep acc s).
Proof.
  revert acc. induction s as [|c s IH]; intros acc Hacc; simpl.
  - by apply Forall_singleton.
  - destruct (Ascii.eqb c sep) eqn:Hc.
    + apply Forall_cons. split; [done | by apply IH].
    + apply IH. rewrite str_contains_char_app, Hacc. simpl.
      by rewrite Hc.
Qed.

Lemma process_segment_grows
    (w : world) (ev : event) (chain : list segment) (seg : segment)
    (name : string) (st st' : collected) (tr tr' : trace) :
  _process_segment w ev chain seg name st tr = (Ok st', tr') -> grows st st'.
Proof.
  destruct seg as [url file|qq mname|text|sub nick sid|kind]; simpl.
  - destruct (truthy_str (py_or url file)) as [src|].
    + intros Hrun. apply bind_ok in Hrun as (image & tr1 & _ & Hrun).
      destruct (truthy_bytes image); inversion Hrun; subst.
      * split; simpl; [by apply prefix_app_r |].
        exists []. by rewrite app_nil_r.
      * apply grows_refl.
    + intros H; inversion H; subst. apply grows_refl.
  - intros Hrun. apply bind_ok in Hrun as (first & tr1 & Hhd & Hrun).
    unfold lift in Hhd. inversion Hhd; subst.
    destruct (negb _).
    + by eapply append_id_info_grows.
    + inversion Hrun; subst. apply grows_refl.
  - destruct (1 <? _)%nat.
    + apply (for_each_preserves grows
               (fun t => py_contains_char " " t = false)).
      * apply grows_refl.
      * apply grows_trans.
      * intros x s0 t0 s1 t1 Hx. by apply process_token_grows.
      * apply Forall_tail. by apply split_on_pieces.
    + intros H; inversion H; subst. apply grows_refl.
  - intros H; inversion H; subst. apply grows_refl.
  - intros H; inversion H; subst. apply grows_refl.
Qed.

Lemma segment_pass_grows
    (w : world) (ev : event) (st st' : collected) (tr tr' : trace) :
  segment_pass w ev st tr = (Ok st', tr') -> grows st st'.
Proof.
  rewrite segment_pass_loops. intros Hrun.
  apply bind_ok in Hrun as (st1 & tr1 & Hreply & Hown).
  apply (grows_trans _ st1).
  - revert Hreply. apply (for_each_preserves grows (fun _ => True));
      [apply grows_refl | apply grows_trans | | by apply Forall_true].
    intros x s0 t0 s1 t1 _. apply process_segment_grows.
  - revert Hown. apply (for_each_preserves grows (fun _ => True));
      [apply grows_refl | apply grows_trans | | by apply Forall_true].
    intros x s0 t0 s1 t1 _. apply process_segment_grows.
Qed.

(** X13. The segment pass runs the loop over the replied message's
    sub-chain first and the loop over the chain second, and each loop
    only adds at the end: what was collected before the pass, then what
    the replied message contributes, then what the message itself
    contributes, in this order. *)
Theorem segment_pass_appends
    (w : world) (ev : event) (st st' : collected) (tr tr' : trace) :
  segment_pass w ev st tr = (Ok st', tr') ->
  exists st1 tr1,
    for_each
      (fun seg => _process_segment w ev (get_messages ev) seg
                    (reply_label_of (get_messages ev)))
      (reply_chain_of (get_messages ev)) st tr = (Ok st1, tr1)
    /\ for_each
         (fun seg => _process_segment w ev (get_messages ev) seg
                       (get_sender_name ev))
         (get_messages ev) st1 tr1 = (Ok st', tr')
    /\ images st `prefix_of` images st1
    /\ images st1 `prefix_of` images st'
    /\ texts st `prefix_of` texts st1
    /\ texts st1 `prefix_of` texts st'.
Proof.
  rewrite segment_pass_loops. intros Hrun.
  apply bind_ok in Hrun as (st1 & tr1 & Hreply & Hown).
  exists st1, tr1. split; [done |]. split; [done |].
  assert (Hg1 : grows st st1).
  { revert Hreply. apply (for_each_preserves grows (fun _ => True));
      [apply grows_refl | apply grows_trans | | by apply Forall_true].
    intros x s0 t0 s1 t1 _. apply process_segment_grows. }
  assert (Hg2 : grows st1 st').
  { revert Hown. apply (for_each_preserves grows (fun _ => True));
      [apply grows_refl | apply grows_trans | | by apply Forall_true].
    intros x s0 t0 s1 t1 _. apply process_segment_grows. }
  destruct Hg1 as [Hi1 (a1 & Ht1 & _)]. destruct Hg2 as [Hi2 (a2 & Ht2 & _)].
  split; [done |]. split; [done |].
  split; [rewrite Ht1 | rewrite Ht2]; by apply prefix_app_r.
Qed.

Lemma segment_pass_appends_witness :
  segment_pass stub_world quoting_event empty_collected []
  = (Ok {| images := [("Bob", png_bytes)];
           texts := ["quoted"; "hard"];
           options := <["gender" := VStr "male"]> (<["name" := VStr "Bob"]> ∅) |},
     [StrangerInfo 12345678; HttpGet (avatar_url "12345678")])
  /\ exists st1 tr1,
       for_each
         (fun seg => _process_segment stub_world quoting_event
                       (get_messages quoting_event) seg
                       (reply_label_of (get_messages quoting_event)))
         (reply_chain_of (get_messages quoting_event)) empty_collected []
       = (Ok st1, tr1)
       /\ for_each
            (fun seg => _process_segment stub_world quoting_event
                          (get_messages quoting_event) seg
                          (get_sender_name quoting_event))
            (get_messages quoting_event) st1 tr1
          = (Ok {| images := [("Bob", png_bytes)];
                   texts := ["quoted"; "hard"];
                   options := <["gender" := VStr "male"]>
                                (<["name" := VStr "Bob"]> ∅) |},
             [StrangerInfo 12345678; HttpGet (avatar_url "12345678")])
       /\ images empty_collected `prefix_of` images st1
       /\ images st1 `prefix_of` [("Bob", png_bytes)]
       /\ texts empty_collected `prefix_of` texts st1
       /\ texts st1 `prefix_of` ["quoted"; "hard"].
Proof.
  split; [vm_compute; reflexivity |].
  apply (segment_pass_appends stub_world quoting_event empty_collected
           {| images := [("Bob", png_bytes)];
              texts := ["quoted"; "hard"];
              options := <["gender" := VStr "male"]>
                           (<["name" := VStr "Bob"]> ∅) |}
           [] [StrangerInfo 12345678; HttpGet (avatar_url "12345678")]).
  vm_compute. reflexivity.
Defined.

(** The replied message's word comes first. *)
Example quoting_event_reply_loop :
  for_each
    (fun seg => _process_segment stub_world quoting_event
                  (get_messages quoting_event) seg
                  (reply_label_of (get_messages quoting_event)))
    (reply_chain_of (get_messages quoting_event)) empty_collected []
  = (Ok {| images := []; texts := ["quoted"]; options := ∅ |}, []).
Proof. vm_compute. reflexivity. Qed.

Lemma py_slice_to_subset {A} (l : list A) (n : Z) (x : A) :
  x ∈ py_slice_to l n -> x ∈ l.
Proof.
  destruct (py_slice_to_prefix l n) as [k ->].
  intros H. apply list_elem_of_lookup in H as [i Hi].
  apply list_elem_of_lookup. exists i.
  apply lookup_take_Some in Hi as [Hi _]. done.
Qed.

(** X14. Every text [collect_params] returns is a default text of the
    constraints or a word taken from a plain-text segment: not empty,
    without a space or an "=", and not starting with "@". *)
Theorem collected_texts_are_words
    (w : world) (ev : event) (params : meme_params) (tr tr' : trace)
    (imgs : list (string * bytes)) (txts : list string)
    (opts : gmap string pyval) (t : string) :
  collect_params w ev params tr = (Ok (imgs, txts, opts), tr') ->
  t ∈ txts ->
  plain_word t = true \/ t ∈ default_texts params.
Proof.
  intros Hrun Ht. unfold collect_params in Hrun.
  apply bind_ok in Hrun as (st & tr1 & Hpass & Hrun).
  apply bind_ok in Hrun as (filled & tr2 & _ & Hrun).
  inversion Hrun; subst. apply py_slice_to_subset in Ht.
  apply segment_pass_grows in Hpass as [_ (added & Htexts & Hwords)].
  simpl in Htexts. rewrite Htexts in Ht.
  assert (Hword : t ∈ added -> plain_word t = true).
  { intros Hin. rewrite Forall_forall in Hwords. by apply Hwords. }
  unfold text_backfill in Ht.
  destruct (len_lt added (min_texts params) && _).
  - apply elem_of_app in Ht as [Ht | Ht]; [left; by apply Hword | by right].
  - left. by apply Hword.
Qed.

Lemma collected_texts_are_words_witness :
  (collect_params stub_world punch_event two_texts_with_default []
   = (Ok ([("Bob", png_bytes)], ["hard"; "!"],
          <["gender" := VStr "male"]> (<["name" := VStr "Bob"]> ∅)),
      [StrangerInfo 12345678; HttpGet (avatar_url "12345678")])
   /\ "hard" ∈ ["hard"; "!"])
  /\ (plain_word "hard" = true \/ "hard" ∈ default_texts two_texts_with_default).
Proof.
  split; [split; [vm_compute; reflexivity | apply list_elem_of_here] |].
  apply (collected_texts_are_words stub_world punch_event
           two_texts_with_default []
           [StrangerInfo 12345678; HttpGet (avatar_url "12345678")]
           [("Bob", png_bytes)] ["hard"; "!"]
           (<["gender" := VStr "male"]> (<["name" := VStr "Bob"]> ∅)) "hard").
  - vm_compute. reflexivity.
  - apply list_elem_of_here.
Defined.

(** ** Mentions *)

Lemma append_id_info_other_platform
    (w : world) (ev : event) (target_id : string)
    (st : collected) (tr : trace) :
  get_platform_name ev <> "aiocqhttp" ->
  _append_id_info w ev target_id st tr = (Ok st, tr).
Proof.
  intros Hplat. unfold _append_id_info.
  by erewrite bind_eq_ok by (by apply get_extra_other_platform).
Qed.

Lemma for_each_without_mentions
    (w : world) (ev : event) (chain segs : list segment) (name : string)
    (st : collected) (tr : trace) :
  get_platform_name ev <> "aiocqhttp" ->
  chain <> [] ->
  for_each (fun seg => _process_segment w ev chain seg name) segs st tr
  = for_each (fun seg => _process_segment w ev chain seg name)
      (without_mentions segs) st tr.
Proof.
  intros Hplat Hchain. revert st tr.
  induction segs as [|seg segs IH]; intros st tr; [done |].
  unfold without_mentions. simpl.
  destruct (is_At seg) eqn:Hat; simpl.
  - destruct seg as [| qq mname | | |]; try discriminate.
    destruct chain as [|first chain]; [done |].
    assert (Hstep : _process_segment w ev (first :: chain) (At qq mname)
                      name st tr = (Ok st, tr)).
    { unfold _process_segment. simpl py_head. unfold bind at 1, lift.
      destruct (negb _); [by apply append_id_info_other_platform | done]. }
    erewrite bind_eq_ok by exact Hstep. apply IH.
  - apply bind_ext. intros st1 tr1. apply IH.
Qed.

(** X15. On a platform other than aiocqhttp no mention is resolved: a
    mention segment or an "@id" token changes nothing and requests
    nothing, and the segment pass does what it does on the chains with
    their mention segments removed. *)
Theorem other_platform_ignores_mentions
    (w : world) (ev : event) (st : collected) (tr : trace) :
  get_platform_name ev <> "aiocqhttp" ->
  (forall target_id, _append_id_info w ev target_id st tr = (Ok st, tr))
  /\ segment_pass w ev st tr
     = (st1 <- for_each
                 (fun seg => _process_segment w ev (get_messages ev) seg
                               (reply_label_of (get_messages ev)))
                 (without_mentions (reply_chain_of (get_messages ev))) st ;;
        for_each
          (fun seg => _process_segment w ev (get_messages ev) seg
                        (get_sender_name ev))
          (without_mentions (get_messages ev)) st1) tr.
Proof.
  intros Hplat. split.
  - intros target_id. by apply append_id_info_other_platform.
  - rewrite segment_pass_loops.
    destruct (get_messages ev) as [|first chain] eqn:Hchain; [done |].
    unfold bind.
    rewrite <- for_each_without_mentions by done.
    destruct (for_each _ (reply_chain_of _) st tr) as [[st1|e] tr1]; [| done].
    by apply for_each_without_mentions.
Qed.

Lemma other_platform_ignores_mentions_witness :
  get_platform_name opaque_sender_event <> "aiocqhttp"
  /\ (forall target_id,
        _append_id_info stub_world opaque_sender_event target_id
          empty_collected [] = (Ok empty_collected, []))
  /\ segment_pass stub_world opaque_sender_event empty_collected []
     = (st1 <- for_each
                 (fun seg => _process_segment stub_world opaque_sender_event
                               (get_messages opaque_sender_event) seg
                               (reply_label_of (get_messages opaque_sender_event)))
                 (without_mentions
                    (reply_chain_of (get_messages opaque_sender_event)))
                 empty_collected ;;
        for_each
          (fun seg => _process_segment stub_world opaque_sender_event
                        (get_messages opaque_sender_event) seg
                        (get_sender_name opaque_sender_event))
          (without_mentions (get_messages opaque_sender_event)) st1) [].
Proof.
  split; [discriminate |].
  apply (other_platform_ignores_mentions stub_world opaque_sender_event
           empty_collected []).
  discriminate.
Defined.



(** X17. On aiocqhttp a failing profile lookup is not silent: a target
    id that [int] rejects raises [ValueError] before anything is
    requested, also for a mention segment such as the mention of
    everybody; and an exception of the platform's lookup is passed
    on. *)
Theorem profile_lookup_failures_propagate
    (w : world) (ev : event) (target_id : string)
    (st : collected) (tr : trace) :
  get_platform_name ev = "aiocqhttp" ->
  (py_int target_id = Raise ValueError ->
   _append_id_info w ev target_id st tr = (Raise ValueError, tr)
   /\ forall chain first mname name,
        chain !! 0%nat = Some first -> first <> At target_id mname ->
        _process_segment w ev chain (At target_id mname) name st tr
        = (Raise ValueError, tr))
  /\ (forall uid e,
        py_int target_id = Ok uid ->
        get_stranger_info w tr uid = Raise e ->
        _append_id_info w ev target_id st tr
        = (Raise e, tr ++ [StrangerInfo uid])).
Proof.
  intros Hplat.
  assert (Hbad : py_int target_id = Raise ValueError ->
                 _append_id_info w ev target_id st tr = (Raise ValueError, tr)).
  { intros Hint. unfold _append_id_info, get_extra. rewrite Hplat. simpl.
    unfold bind, lift. by rewrite Hint. }
  split.
  - intros Hint. split; [by apply Hbad |].
    intros chain first mname name Hhd Hne.
    erewrite process_segment_other_mention by done. by apply Hbad.
  - intros uid e Hint Hinfo. unfold _append_id_info, get_extra.
    rewrite Hplat. simpl. unfold bind, lift, ask. by rewrite Hint, Hinfo.
Qed.

Lemma profile_lookup_failures_propagate_witness :
  (get_platform_name punch_event = "aiocqhttp"
   /\ py_int "all" = Raise ValueError
   /\ py_int "42" = Ok 42
   /\ get_stranger_info stub_world [] 42 = Raise (ExternalError "ActionFailed"))
  /\ _append_id_info stub_world punch_event "all" empty_collected []
     = (Raise ValueError, [])
  /\ _process_segment stub_world punch_event [Plain "pat"; At "all" None]
       (At "all" None) "Alice" empty_collected []
     = (Raise ValueError, [])
  /\ _append_id_info stub_world punch_event "42" empty_collected []
     = (Raise (ExternalError "ActionFailed"), [StrangerInfo 42]).
Proof.
  split; [repeat split |].
  split; [| split].
  - apply (profile_lookup_failures_propagate stub_world punch_event "all"
             empty_collected []); reflexivity.
  - apply (profile_lookup_failures_propagate stub_world punch_event "all"
             empty_collected []) with (first := Plain "pat");
      [reflexivity | reflexivity | reflexivity | discriminate].
  - apply (profile_lookup_failures_propagate stub_world punch_event "42"
             empty_collected []); reflexivity.
Defined.

(** ** The avatar address *)

Lemma digit_not_h (c : ascii) :
  py_isdigit_char c = true -> c <> "h"%char.
Proof. intros Hc ->. discriminate. Qed.

Lemma replace_go_digits (d rest : string) :
  str_forall py_isdigit_char d = true ->
  replace_go "https://" "http://" 0 (d +:+ rest)
  = d +:+ replace_go "https://" "http://" 0 rest.
Proof.
  induction d as [|c d IH]; intros Hd; [done |].
  simpl in Hd. apply andb_true_iff in Hd as [Hc Hd].
  apply digit_not_h in Hc.
  assert (Hp : py_startswith "https://" (String c (d +:+ rest)) = false).
  { unfold py_startswith. cbn [String.prefix].
    destruct (ascii_dec "h" c) as [Heq | _]; [congruence | done]. }
  cbn [String.append replace_go]. by rewrite Hp, IH.
Qed.

Lemma replace_go_skip (old new : string) (k : nat) (c : ascii) (s : string) :
  replace_go old new (S k) (String c s) = replace_go old new k s.
Proof. reflexivity. Qed.

Lemma replace_go_miss (old new : string) (c : ascii) (s : string) :
  py_startswith old (String c s) = false ->
  replace_go old new 0 (String c s) = String c (replace_go old new 0 s).
Proof. intros H. cbn [replace_go]. by rewrite H. Qed.

Lemma replace_go_hit (old new : string) (c : ascii) (s : string) :
  py_startswith old (String c s) = true ->
  replace_go old new 0 (String c s)
  = new +:+ replace_go old new (String.length old - 1) s.
Proof. intros H. cbn [replace_go]. by rewrite H. Qed.

Lemma avatar_request_digits (user_id : string) :
  py_isdigit user_id = true -> avatar_request user_id = avatar_url user_id.
Proof.
  intros [_ Hd]%andb_true_iff.
  unfold avatar_request, avatar_url, py_replace.
  cbn [String.append].
  rewrite replace_go_hit by reflexivity.
  change (String.length "https://" - 1)%nat with 7%nat.
  do 7 rewrite replace_go_skip.
  do 31 (rewrite replace_go_miss by reflexivity).
  rewrite replace_go_digits by done.
  reflexivity.
Qed.

(** X18. For a user id made of digits [get_avatar] issues exactly one
    request, to
    [http://q4.qlogo.cn/headimg_dl?dst_uin=<id>&spec=640] (plain http,
    the id inserted as it is), and returns what the download gives,
    [None] when it fails. *)
Theorem get_avatar_request
    (w : world) (user_id : string) (tr : trace) :
  py_isdigit user_id = true ->
  get_avatar w user_id tr
  = (Ok (http_get w tr (avatar_url user_id)),
     tr ++ [HttpGet (avatar_url user_id)]).
Proof.
  intros Hd. rewrite get_avatar_digits by done.
  by rewrite avatar_request_digits.
Qed.

Lemma get_avatar_request_witness :
  py_isdigit "87654321" = true
  /\ get_avatar stub_world "87654321" []
     = (Ok None, [HttpGet "http://q4.qlogo.cn/headimg_dl?dst_uin=87654321&spec=640"]).
Proof.
  split; [reflexivity |].
  apply (get_avatar_request stub_world "87654321" []). reflexivity.
Defined.

(** ** Image backfill when both ids are numbers *)

(** X19. When the sender's and the bot's ids are made of digits the
    backfill always returns, and this is all it does. With enough
    images it requests nothing. Otherwise it downloads the sender's
    avatar once and, if that gives data, puts it in front under the
    sender's name; if images are still missing it downloads the bot's
    avatar once and, if that gives data, puts it in front of everything
    under the label "bot". A download that fails or gives no data adds
    nothing. *)
Lemma image_backfill_numeric_ids
    (w : world) (ev : event) (params : meme_params)
    (imgs : list (string * bytes)) (tr : trace) :
  py_isdigit (get_sender_id ev) = true ->
  py_isdigit (get_self_id ev) = true ->
  let us := avatar_url (get_sender_id ev) in
  let ub := avatar_url (get_self_id ev) in
  let sender_part :=
    if len_lt imgs (min_images params) then
      match truthy_bytes (http_get w tr us) with
      | Some data => [(get_sender_name ev, data)]
      | None => []
      end
    else [] in
  let bot_wanted := len_lt (sender_part ++ imgs) (min_images params) in
  let bot_part :=
    if bot_wanted then
      match truthy_bytes (http_get w (tr ++ [HttpGet us]) ub) with
      | Some data => [("bot", data)]
      | None => []
      end
    else [] in
  let reqs :=
    if len_lt imgs (min_images params)
    then HttpGet us :: (if bot_wanted then [HttpGet ub] else [])
    else [] in
  image_backfill w ev params imgs tr
  = (Ok (bot_part ++ sender_part ++ imgs), tr ++ reqs).
Proof.
  intros Hs Hb us ub. cbv zeta. unfold image_backfill, bind.
  destruct (len_lt imgs (min_images params)) eqn:Hlt.
  - rewrite get_avatar_digits, avatar_request_digits by done. fold us.
    destruct (truthy_bytes (http_get w tr us)) as [ds|]; unfold ret at 1.
    + change ([(get_sender_name ev, ds)] ++ imgs)
        with ((get_sender_name ev, ds) :: imgs).
      destruct (len_lt ((get_sender_name ev, ds) :: imgs) (min_images params)).
      * cbv beta. rewrite get_avatar_digits, avatar_request_digits by done.
        fold ub.
        rewrite <- (app_assoc tr [HttpGet us] [HttpGet ub]).
        by destruct (truthy_bytes (http_get w (tr ++ [HttpGet us]) ub)).
      * done.
    + change ([] ++ imgs) with imgs. rewrite Hlt. cbv beta.
      rewrite get_avatar_digits, avatar_request_digits by done. fold ub.
      rewrite <- (app_assoc tr [HttpGet us] [HttpGet ub]).
      by destruct (truthy_bytes (http_get w (tr ++ [HttpGet us]) ub)).
  - unfold ret at 1. change ([] ++ imgs) with imgs. rewrite Hlt.
    unfold ret. by rewrite app_nil_r.
Qed.

Lemma image_backfill_numeric_ids_witness :
  (py_isdigit (get_sender_id punch_event) = true
   /\ py_isdigit (get_self_id punch_event) = true)
  /\ image_backfill open_world punch_event two_images [] []
     = (Ok [("bot", png_bytes); ("Alice", png_bytes)],
        [HttpGet (avatar_url "87654321"); HttpGet (avatar_url "10001")]).
Proof.
  split; [split; reflexivity |].
  apply (image_backfill_numeric_ids open_world punch_event two_images [] []);
    reflexivity.
Defined.

(** With the sender's avatar out of reach only the bot's is added. *)
Example image_backfill_bot_only :
  image_backfill
    {| http_get := fun tr _ => match tr with [] => None | _ => Some png_bytes end;
       path_is_file := path_is_file stub_world;
       path_read_bytes := path_read_bytes stub_world;
       get_stranger_info := get_stranger_info stub_world;
       b64decode := b64decode stub_world |}
    punch_event two_images [] []
  = (Ok [("bot", png_bytes)],
     [HttpGet (avatar_url "87654321"); HttpGet (avatar_url "10001")]).
Proof. reflexivity. Qed.

(** ** Image segments *)

(** X20. An image segment changes neither the texts nor the options;
    it adds at most one image, at the end, with non-empty data and
    the label of the loop that processes it; without a url or a file it
    changes nothing and requests nothing. *)
Theorem image_segment_adds_labelled_image
    (w : world) (ev : event) (chain : list segment)
    (url file : option string) (name : string)
    (st st' : collected) (tr tr' : trace) :
  _process_segment w ev chain (Image url file) name st tr = (Ok st', tr') ->
  texts st' = texts st
  /\ options st' = options st
  /\ (images st' = images st
      \/ exists data, data <> [] /\ images st' = images st ++ [(name, data)])
  /\ (truthy_str (py_or url file) = None -> st' = st /\ tr' = tr).
Proof.
  simpl. destruct (truthy_str (py_or url file)) as [src|].
  - intros Hrun. apply bind_ok in Hrun as (image & tr1 & _ & Hrun).
    destruct (truthy_bytes image) as [data|] eqn:Himage;
      inversion Hrun; subst; simpl.
    + apply truthy_bytes_some in Himage as [_ Hne].
      split; [done |]. split; [done |]. split; [| discriminate].
      right. by exists data.
    + split; [done |]. split; [done |]. split; [by left | discriminate].
  - intros H; inversion H; subst.
    split; [done |]. split; [done |]. split; [by left | done].
Qed.

Lemma image_segment_adds_labelled_image_witness :
  _process_segment stub_world punch_event []
    (Image (Some "https://q4.qlogo.cn/headimg_dl?dst_uin=12345678&spec=640") None)
    "Alice" empty_collected []
  = (Ok {| images := [("Alice", png_bytes)]; texts := []; options := ∅ |},
     [IsFile "https://q4.qlogo.cn/headimg_dl?dst_uin=12345678&spec=640";
      HttpGet (avatar_url "12345678")])
  /\ texts {| images := [("Alice", png_bytes)]; texts := []; options := ∅ |}
     = texts empty_collected
  /\ options {| images := [("Alice", png_bytes)]; texts := []; options := ∅ |}
     = options empty_collected
  /\ (images {| images := [("Alice", png_bytes)]; texts := []; options := ∅ |}
      = images empty_collected
      \/ exists data, data <> []
           /\ images {| images := [("Alice", png_bytes)]; texts := [];
                        options := ∅ |}
              = images empty_collected ++ [("Alice", data)])
  /\ (truthy_str
        (py_or (Some "https://q4.qlogo.cn/headimg_dl?dst_uin=12345678&spec=640")
           None) = None ->
      {| images := [("Alice", png_bytes)]; texts := []; options := ∅ |}
      = empty_collected
      /\ [IsFile "https://q4.qlogo.cn/headimg_dl?dst_uin=12345678&spec=640";
          HttpGet (avatar_url "12345678")] = []).
Proof.
  split; [reflexivity |].
  apply (image_segment_adds_labelled_image stub_world punch_event []
           (Some "https://q4.qlogo.cn/headimg_dl?dst_uin=12345678&spec=640")
           None "Alice" empty_collected
           {| images := [("Alice", png_bytes)]; texts := []; options := ∅ |}
           []
           [IsFile "https://q4.qlogo.cn/headimg_dl?dst_uin=12345678&spec=640";
            HttpGet (avatar_url "12345678")]).
  reflexivity.
Defined.
